(** * AskLLM gateway (main.go): a shallow embedding and its properties

    The program is one gin handler: it reads the query parameter [q], builds
    a chat-completion payload, marshals it to JSON, posts it upstream, and
    relays the first choice of the decoded answer.

    Go strings are byte sequences; they are embedded as [string] (a sequence
    of 8-bit [ascii]).  The parts of Go's standard library that the handler
    calls ([unicode/utf8], [unicode/utf16], [strconv], [encoding/json]) are
    embedded in modules of the same names, restricted to the types this
    program marshals and unmarshals. *)

From Stdlib Require Import ZArith Ascii String List Lia Bool.
From Stdlib Require Import Floats.SpecFloat DecimalString.
From stdpp Require Import base option list gmap strings.

Open Scope string_scope.
Open Scope Z_scope.

(** ** Bytes of a Go string *)

(** [s[i]] as a number, and [byte(x)] for a number already in range. *)
Definition u8 (c : ascii) : Z := Z.of_N (N_of_ascii c).
Definition byte (x : Z) : ascii := ascii_of_N (Z.to_N (Z.land x 0xFF)).

(** The double quote character (code 34). *)
Definition dquote : ascii := "034"%char.

Fixpoint drop_string (n : nat) (s : string) : string :=
  match n, s with
  | O, _ => s
  | S n', String _ t => drop_string n' t
  | S _, EmptyString => EmptyString
  end.

Fixpoint take_string (n : nat) (s : string) : string :=
  match n, s with
  | S n', String c t => String c (take_string n' t)
  | _, _ => EmptyString
  end.

(** ** unicode/utf8 *)
Module utf8.

Definition RuneError : Z := 0xFFFD.
Definition RuneSelf : Z := 0x80.
Definition MaxRune : Z := 0x10FFFF.
Definition surrogateMin : Z := 0xD800.
Definition surrogateMax : Z := 0xDFFF.

Definition t2 : Z := 0xC0.
Definition t3 : Z := 0xE0.
Definition t4 : Z := 0xF0.
Definition tx : Z := 0x80.
Definition maskx : Z := 0x3F.
Definition mask2 : Z := 0x1F.
Definition mask3 : Z := 0x0F.
Definition mask4 : Z := 0x07.
Definition rune1Max : Z := 0x7F.
Definition rune2Max : Z := 0x7FF.
Definition rune3Max : Z := 0xFFFF.
Definition locb : Z := 0x80.
Definition hicb : Z := 0xBF.

(** The table [first] with its [acceptRanges]: for a leading byte, either
    ASCII ([as]), invalid ([xx]), or the size of the sequence together
    with the accepted range of the second byte. *)
Inductive firstInfo : Type :=
| fi_as
| fi_xx
| fi_lead (sz : nat) (lo hi : Z).

Definition first (b : Z) : firstInfo :=
  if b <? 0x80 then fi_as
  else if b <? 0xC2 then fi_xx
  else if b <? 0xE0 then fi_lead 2 locb hicb
  else if b =? 0xE0 then fi_lead 3 0xA0 hicb
  else if b <? 0xED then fi_lead 3 locb hicb
  else if b =? 0xED then fi_lead 3 locb 0x9F
  else if b <? 0xF0 then fi_lead 3 locb hicb
  else if b =? 0xF0 then fi_lead 4 0x90 hicb
  else if b <? 0xF4 then fi_lead 4 locb hicb
  else if b =? 0xF4 then fi_lead 4 locb 0x8F
  else fi_xx.

(** [utf8.DecodeRuneInString] (and [utf8.DecodeRune], which is the same
    function on a byte slice): the rune and the number of bytes it takes. *)
Definition DecodeRuneInString (s : string) : Z * nat :=
  match s with
  | EmptyString => (RuneError, 0%nat)
  | String s0 r0 =>
    match first (u8 s0) with
    | fi_as => (u8 s0, 1%nat)
    | fi_xx => (RuneError, 1%nat)
    | fi_lead sz lo hi =>
      match r0 with
      | EmptyString => (RuneError, 1%nat)
      | String s1 r1 =>
        if (u8 s1 <? lo) || (hi <? u8 s1) then (RuneError, 1%nat)
        else if (sz <=? 2)%nat then
          (Z.lor (Z.shiftl (Z.land (u8 s0) mask2) 6) (Z.land (u8 s1) maskx), 2%nat)
        else
          match r1 with
          | EmptyString => (RuneError, 1%nat)
          | String s2 r2 =>
            if (u8 s2 <? locb) || (hicb <? u8 s2) then (RuneError, 1%nat)
            else if (sz <=? 3)%nat then
              (Z.lor (Z.lor (Z.shiftl (Z.land (u8 s0) mask3) 12)
                            (Z.shiftl (Z.land (u8 s1) maskx) 6))
                     (Z.land (u8 s2) maskx), 3%nat)
            else
              match r2 with
              | EmptyString => (RuneError, 1%nat)
              | String s3 _ =>
                if (u8 s3 <? locb) || (hicb <? u8 s3) then (RuneError, 1%nat)
                else
                  (Z.lor (Z.lor (Z.lor (Z.shiftl (Z.land (u8 s0) mask4) 18)
                                       (Z.shiftl (Z.land (u8 s1) maskx) 12))
                                (Z.shiftl (Z.land (u8 s2) maskx) 6))
                         (Z.land (u8 s3) maskx), 4%nat)
              end
          end
      end
    end
  end.

(** [utf8.EncodeRune], returning the bytes written. *)
Definition EncodeRune (r : Z) : string :=
  if (0 <=? r) && (r <=? rune1Max) then
    String (byte r) EmptyString
  else if (0 <=? r) && (r <=? rune2Max) then
    String (byte (Z.lor t2 (Z.land (Z.shiftr r 6) 0xFF)))
   (String (byte (Z.lor tx (Z.land (Z.land r 0xFF) maskx))) EmptyString)
  else
    let r3 :=
      if (r <? 0) || (MaxRune <? r) || ((surrogateMin <=? r) && (r <=? surrogateMax))
      then Some RuneError
      else if r <=? rune3Max then Some r else None in
    match r3 with
    | Some r =>
      String (byte (Z.lor t3 (Z.land (Z.shiftr r 12) 0xFF)))
     (String (byte (Z.lor tx (Z.land (Z.land (Z.shiftr r 6) 0xFF) maskx)))
     (String (byte (Z.lor tx (Z.land (Z.land r 0xFF) maskx))) EmptyString))
    | None =>
      String (byte (Z.lor t4 (Z.land (Z.shiftr r 18) 0xFF)))
     (String (byte (Z.lor tx (Z.land (Z.land (Z.shiftr r 12) 0xFF) maskx)))
     (String (byte (Z.lor tx (Z.land (Z.land (Z.shiftr r 6) 0xFF) maskx)))
     (String (byte (Z.lor tx (Z.land (Z.land r 0xFF) maskx))) EmptyString)))
    end.

(** [utf8.ValidString]: no position decodes to [(RuneError, 1)].  The
    remainder [s[i+size:]] is written by cases on [size], which keeps the
    recursion structural. *)
Fixpoint ValidString (s : string) : bool :=
  match s with
  | EmptyString => true
  | String _ r0 =>
    let '(c, size) := DecodeRuneInString s in
    if (c =? RuneError) && (size =? 1)%nat then false
    else
      match size, r0 with
      | 2%nat, String _ r1 => ValidString r1
      | 3%nat, String _ (String _ r2) => ValidString r2
      | 4%nat, String _ (String _ (String _ r3)) => ValidString r3
      | _, _ => ValidString r0
      end
  end.

End utf8.

(** ** unicode/utf16 *)
Module utf16.

Definition surr1 : Z := 0xD800.
Definition surr2 : Z := 0xDC00.
Definition surr3 : Z := 0xE000.
Definition surrSelf : Z := 0x10000.
Definition replacementChar : Z := 0xFFFD.

Definition IsSurrogate (r : Z) : bool := (surr1 <=? r) && (r <? surr3).

Definition DecodeRune (r1 r2 : Z) : Z :=
  if (surr1 <=? r1) && (r1 <? surr2) && (surr2 <=? r2) && (r2 <? surr3)
  then Z.lor (Z.shiftl (r1 - surr1) 10) (r2 - surr2) + surrSelf
  else replacementChar.

End utf16.

(** ** strconv *)
Module strconv.

Definition isDigit (c : ascii) : bool := (48 <=? u8 c) && (u8 c <=? 57).

(** [strconv.FormatInt(i, 10)]. *)
Definition FormatInt (i : Z) : string :=
  DecimalString.NilZero.string_of_int (Z.to_int i).

(** The digit loop of [ParseUint] in base 10; the accumulator is exact, the
    range check happens in the caller. *)
Fixpoint parseDigits (s : string) (acc : Z) : option Z :=
  match s with
  | EmptyString => Some acc
  | String c t =>
    if isDigit c then parseDigits t (acc * 10 + (u8 c - 48)) else None
  end.

(** [strconv.ParseUint(s, 10, 64)]; [None] stands for a non-nil error. *)
Definition ParseUint (s : string) : option Z :=
  match s with
  | EmptyString => None
  | _ =>
    match parseDigits s 0 with
    | Some n => if n <? 2 ^ 64 then Some n else None
    | None => None
    end
  end.

(** [strconv.ParseInt(s, 10, 64)]. *)
Definition ParseInt (s : string) : option Z :=
  match s with
  | EmptyString => None
  | String c t =>
    let neg := Ascii.eqb c "-" in
    let s' := if Ascii.eqb c "+" || neg then t else s in
    match ParseUint s' with
    | None => None
    | Some un =>
      if negb neg && (2 ^ 63 <=? un) then None
      else if neg && (2 ^ 63 <? un) then None
      else Some (if neg then - un else un)
    end
  end.

(** *** float64

    A float64 is a [spec_float] with 53 bits of precision. *)
Definition float64 : Type := spec_float.
Definition prec : Z := 53.
Definition emax : Z := 1024.

(** The float64 nearest to [num / den] (ties to even), for [0 < den]. *)
Definition nearest (neg : bool) (num den : Z) : float64 :=
  match num, den with
  | Zpos n, Zpos d =>
    SFdiv prec emax (S754_finite neg n 0) (S754_finite false d 0)
  | _, _ => S754_zero neg
  end.

(** The float64 nearest to [m * 10 ^ e]. *)
Definition nearest_dec (neg : bool) (m e : Z) : float64 :=
  if 0 <=? e then nearest neg (m * 10 ^ e) 1 else nearest neg m (10 ^ (- e)).

(** [readFloat]: sign, digits with an optional point, optional exponent.
    The result is the sign, the digits read as one integer and the power
    of ten that scales it. *)
Fixpoint readDigits (s : string) (acc n : Z) : Z * Z * string :=
  match s with
  | String c t =>
    if isDigit c then readDigits t (acc * 10 + (u8 c - 48)) (n + 1)
    else (acc, n, s)
  | EmptyString => (acc, n, s)
  end.

(** The exponent loop keeps the value below 10000 + 9 as the source does. *)
Fixpoint readExp (s : string) (e n : Z) : Z * Z * string :=
  match s with
  | String c t =>
    if isDigit c
    then readExp t (if e <? 10000 then e * 10 + (u8 c - 48) else e) (n + 1)
    else (e, n, s)
  | EmptyString => (e, n, s)
  end.

Definition readFloat (s : string) : option (bool * Z * Z) :=
  let '(neg, s1) :=
    match s with
    | String "-" t => (true, t)
    | String "+" t => (false, t)
    | _ => (false, s)
    end in
  let '(m1, n1, s2) := readDigits s1 0 0 in
  let '(m2, n2, s3) :=
    match s2 with
    | String "." t => readDigits t m1 0
    | _ => (m1, 0, s2)
    end in
  if (n1 + n2 =? 0) then None
  else
    match s3 with
    | EmptyString => Some (neg, m2, - n2)
    | String c t =>
      if Ascii.eqb c "e" || Ascii.eqb c "E" then
        let '(eneg, s4) :=
          match t with
          | String "-" u => (true, u)
          | String "+" u => (false, u)
          | _ => (false, t)
          end in
        let '(e, ne, s5) := readExp s4 0 0 in
        if ne =? 0 then None
        else
          match s5 with
          | EmptyString => Some (neg, m2, (if eneg then - e else e) - n2)
          | _ => None
          end
      else None
    end.

(** [strconv.ParseFloat(s, 64)] on decimal input: the nearest float64; a
    value that rounds to an infinity is a range error ([None]). *)
Definition ParseFloat (s : string) : option float64 :=
  match readFloat s with
  | None => None
  | Some (neg, m, e) =>
    match nearest_dec neg m e with
    | S754_infinity _ => None
    | f => Some f
    end
  end.

(** *** Shortest formatting

    [FormatFloat(f, fmt, -1, 64)] prints the shortest digit string that
    [ParseFloat] maps back to [f], and among those the one nearest to [f].
    [shortest] searches it by increasing length. *)

(** [f] (positive, finite) as a fraction. *)
Definition fraction (m : positive) (e : Z) : Z * Z :=
  if 0 <=? e then (Zpos m * 2 ^ e, 1) else (Zpos m, 2 ^ (- e)).

(** The largest [k] with [10 ^ k <= p / q], searched upwards from [k]. *)
Fixpoint log10_from (fuel : nat) (k p q : Z) : Z :=
  match fuel with
  | O => k
  | S fuel' =>
    let above :=
      if 0 <=? k + 1 then p <? q * 10 ^ (k + 1) else p * 10 ^ (- (k + 1)) <? q in
    if above then k else log10_from fuel' (k + 1) p q
  end.

Definition same_float (f g : float64) : bool :=
  match SFcompare f g with Some Eq => true | _ => false end.

(** The [n]-digit candidates around [p / q] at scale [10 ^ k], and the
    choice between them. *)
Definition digits_at (f : float64) (p q k : Z) : option (Z * Z) :=
  let '(P, Q) := if 0 <=? k then (p, q * 10 ^ k) else (p * 10 ^ (- k), q) in
  let lo := P / Q in
  let rem := P mod Q in
  let ok_lo := same_float (nearest_dec false lo k) f in
  let ok_hi := negb (rem =? 0) && same_float (nearest_dec false (lo + 1) k) f in
  if ok_lo && ok_hi then
    if 2 * rem <? Q then Some (lo, k)
    else if Q <? 2 * rem then Some (lo + 1, k)
    else Some (if Z.even lo then lo else lo + 1, k)
  else if ok_lo then Some (lo, k)
  else if ok_hi then Some (lo + 1, k)
  else None.

Fixpoint shortest_from (fuel : nat) (n : Z) (f : float64) (p q e10 : Z)
  : Z * Z :=
  match fuel with
  | O => (0, 0)
  | S fuel' =>
    match digits_at f p q (e10 - (n - 1)) with
    | Some dk => dk
    | None => shortest_from fuel' (n + 1) f p q e10
    end
  end.

(** Remove trailing zeros of the digit integer. *)
Fixpoint strip_zeros (fuel : nat) (d k : Z) : Z * Z :=
  match fuel with
  | O => (d, k)
  | S fuel' =>
    if (d mod 10 =? 0) && negb (d =? 0) then strip_zeros fuel' (d / 10) (k + 1)
    else (d, k)
  end.

(** The digits of [f] and the position [dp] of the decimal point:
    [f = 0.digits * 10 ^ dp]. *)
Definition shortest (m : positive) (e : Z) : string * Z :=
  let '(p, q) := fraction m e in
  let e10 := log10_from 700 (-330) p q in
  let '(d, k) := shortest_from 17 1 (S754_finite false m e) p q e10 in
  let '(d, k) := strip_zeros 20 d k in
  let ds := FormatInt d in
  (ds, Z.of_nat (String.length ds) + k).

Fixpoint zeros (n : nat) : string :=
  match n with O => EmptyString | S n' => String "0" (zeros n') end.

(** [%f] with the shortest digits. *)
Definition fmtF (neg : bool) (ds : string) (dp : Z) : string :=
  let nd := Z.of_nat (String.length ds) in
  let int_part :=
    if 0 <? dp then
      take_string (Z.to_nat dp) ds +:+ zeros (Z.to_nat (dp - nd))
    else "0" in
  let frac_part :=
    if dp <? nd then
      "." +:+ zeros (Z.to_nat (- dp)) +:+ drop_string (Z.to_nat dp) ds
    else EmptyString in
  (if neg then "-" else EmptyString) +:+ int_part +:+ frac_part.

(** [%e] with the shortest digits: [d.ddde+xx], at least two exponent
    digits. *)
Definition fmtE (neg : bool) (ds : string) (dp : Z) : string :=
  let exp := dp - 1 in
  let mant :=
    match ds with
    | String d EmptyString => String d EmptyString
    | String d t => String d ("." +:+ t)
    | EmptyString => "0"
    end in
  let ea := FormatInt (Z.abs exp) in
  (if neg then "-" else EmptyString) +:+ mant +:+ "e"
    +:+ (if exp <? 0 then "-" else "+")
    +:+ (if Z.abs exp <? 10 then "0" else EmptyString) +:+ ea.

(** [strconv.FormatFloat(f, fmt, -1, 64)] for [fmt] one of ['f'] and
    ['e'], on a finite [f]. *)
Definition FormatFloat (f : float64) (fmt : ascii) : string :=
  let put neg ds dp :=
    if Ascii.eqb fmt "e" then fmtE neg ds dp else fmtF neg ds dp in
  match f with
  | S754_zero neg => put neg "0" 1
  | S754_finite neg m e => let '(ds, dp) := shortest m e in put neg ds dp
  | S754_infinity neg => if neg then "-Inf" else "+Inf"
  | S754_nan => "NaN"
  end.

End strconv.

(** ** encoding/json *)
Module json.

(** *** Encoding of strings: [appendString] with [escapeHTML = true] *)

Definition hex : string := "0123456789abcdef".

Definition hexchar (n : Z) : ascii :=
  match String.get (Z.to_nat n) hex with
  | Some c => c
  | None => "0"%char
  end.

(** [htmlSafeSet]: the ASCII bytes written without escaping. *)
Definition htmlSafeSet (b : ascii) : bool :=
  (0x20 <=? u8 b) && (u8 b <? 0x80)
  && negb (Ascii.eqb b dquote) && negb (Ascii.eqb b "\")
  && negb (Ascii.eqb b "<") && negb (Ascii.eqb b ">")
  && negb (Ascii.eqb b "&").

(** The escape written for an ASCII byte outside [htmlSafeSet]. *)
Definition escapeByte (b : ascii) : string :=
  if Ascii.eqb b "\" || Ascii.eqb b dquote then String "\" (String b EmptyString)
  else if u8 b =? 8 then "\b"
  else if u8 b =? 12 then "\f"
  else if u8 b =? 10 then "\n"
  else if u8 b =? 13 then "\r"
  else if u8 b =? 9 then "\t"
  else "\u00" +:+ String (hexchar (Z.shiftr (u8 b) 4))
                    (String (hexchar (Z.land (u8 b) 0xF)) EmptyString).

(** The loop of [appendString] over [src[i:]].  Runs of unescaped bytes
    are copied as they are; the remainder after a rune is written by cases
    on its size. *)
Fixpoint appendStringLoop (src : string) : string :=
  match src with
  | EmptyString => EmptyString
  | String b r0 =>
    if u8 b <? utf8.RuneSelf then
      (if htmlSafeSet b then String b EmptyString else escapeByte b)
        +:+ appendStringLoop r0
    else
      let '(c, size) := utf8.DecodeRuneInString src in
      if (c =? utf8.RuneError) && (size =? 1)%nat then
        ("\" +:+ "ufffd") +:+ appendStringLoop r0
      else
        let out :=
          if (c =? 0x2028) || (c =? 0x2029)
          then "\u202" +:+ String (hexchar (Z.land c 0xF)) EmptyString
          else take_string size src in
        match size, r0 with
        | 2%nat, String _ r1 => out +:+ appendStringLoop r1
        | 3%nat, String _ (String _ r2) => out +:+ appendStringLoop r2
        | 4%nat, String _ (String _ (String _ r3)) => out +:+ appendStringLoop r3
        | _, _ => out +:+ appendStringLoop r0
        end
  end.

Definition appendString (src : string) : string :=
  String dquote (appendStringLoop src +:+ String dquote EmptyString).

(** *** Decoding of string literals: [unquoteBytes] *)

Definition hexval (c : ascii) : option Z :=
  if (48 <=? u8 c) && (u8 c <=? 57) then Some (u8 c - 48)
  else if (97 <=? u8 c) && (u8 c <=? 102) then Some (u8 c - 97 + 10)
  else if (65 <=? u8 c) && (u8 c <=? 70) then Some (u8 c - 65 + 10)
  else None.

(** [getu4]: the rune of a leading [\uXXXX], or [-1]. *)
Definition getu4 (s : string) : Z :=
  match s with
  | String "\" (String "u" (String a (String b (String c (String d _))))) =>
    match hexval a, hexval b, hexval c, hexval d with
    | Some a, Some b, Some c, Some d => ((a * 16 + b) * 16 + c) * 16 + d
    | _, _, _, _ => -1
    end
  | _ => -1
  end.

Definition prepend (p : string) (o : option string) : option string :=
  match o with
  | Some s => Some (p +:+ s)
  | None => None
  end.

(** The decoding loop of [unquoteBytes] on the text between the quotes;
    [None] is [ok = false].  (The source first skips a prefix that needs no
    change and returns the input itself when that is all of it; the loop
    below copies such bytes one rune at a time.) *)
Fixpoint unquoteLoop (s : string) : option string :=
  match s with
  | EmptyString => Some EmptyString
  | String c r1 =>
    if Ascii.eqb c "\" then
      match r1 with
      | EmptyString => None
      | String e r2 =>
        if Ascii.eqb e dquote || Ascii.eqb e "\" || Ascii.eqb e "/"
           || Ascii.eqb e "'"
        then prepend (String e EmptyString) (unquoteLoop r2)
        else if Ascii.eqb e "b" then prepend (String (byte 8) EmptyString) (unquoteLoop r2)
        else if Ascii.eqb e "f" then prepend (String (byte 12) EmptyString) (unquoteLoop r2)
        else if Ascii.eqb e "n" then prepend (String (byte 10) EmptyString) (unquoteLoop r2)
        else if Ascii.eqb e "r" then prepend (String (byte 13) EmptyString) (unquoteLoop r2)
        else if Ascii.eqb e "t" then prepend (String (byte 9) EmptyString) (unquoteLoop r2)
        else if Ascii.eqb e "u" then
          let rr := getu4 s in
          if rr <? 0 then None
          else
            match r2 with
            | String _ (String _ (String _ (String _ r6))) =>
              if utf16.IsSurrogate rr then
                let dec := utf16.DecodeRune rr (getu4 r6) in
                if negb (dec =? utf16.replacementChar) then
                  match r6 with
                  | String _ (String _ (String _ (String _ (String _ (String _ r12))))) =>
                    prepend (utf8.EncodeRune dec) (unquoteLoop r12)
                  | _ => None
                  end
                else prepend (utf8.EncodeRune utf16.replacementChar) (unquoteLoop r6)
              else prepend (utf8.EncodeRune rr) (unquoteLoop r6)
            | _ => None
            end
        else None
      end
    else if Ascii.eqb c dquote || (u8 c <? 0x20) then None
    else if u8 c <? utf8.RuneSelf then prepend (String c EmptyString) (unquoteLoop r1)
    else
      let '(rr, size) := utf8.DecodeRuneInString s in
      match size, r1 with
      | 2%nat, String _ r2 => prepend (utf8.EncodeRune rr) (unquoteLoop r2)
      | 3%nat, String _ (String _ r3) => prepend (utf8.EncodeRune rr) (unquoteLoop r3)
      | 4%nat, String _ (String _ (String _ r4)) =>
        prepend (utf8.EncodeRune rr) (unquoteLoop r4)
      | _, _ => prepend (utf8.EncodeRune rr) (unquoteLoop r1)
      end
  end.

(** *** JSON values *)

(** A number keeps its literal text: it is converted when it is stored
    into a field, by the rules of the field's type. *)
#[warnings="-register-all"]
Inductive value : Type :=
| Null
| Bool (b : bool)
| Number (lit : string)
| Str (s : string)
| Array (elems : list value)
| Object (members : list (string * value)).

(** *** The scanner

    The scanner reads one byte at a time.  Its [parseState] stack is the
    list of [frame]s, which here also hold what has been read of the
    enclosing arrays and objects (most recent first). *)
Inductive frame : Type :=
| FKey (done : list (string * value))
    (* parseObjectKey, before the key *)
| FColon (done : list (string * value)) (key : string)
    (* parseObjectKey, after the key *)
| FVal (done : list (string * value)) (key : string)
    (* parseObjectValue, before the value *)
| FNext (done : list (string * value))
    (* parseObjectValue, after the value *)
| FArr (done : list value).
    (* parseArrayValue *)

Inductive pos : Type :=
| BeginValue
| BeginValueOrEmpty
| BeginStringOrEmpty
| BeginString
| EndValue.

Inductive strstate : Type :=
| InString
| InStringEsc
| InStringEscU (left : nat).

Inductive numstate : Type :=
| sNeg | s1 | s0 | sDot | sDot0 | sE | sESign | sE0.

Inductive state : Type :=
| SPos (stk : list frame) (p : pos)
| SStr (stk : list frame) (ss : strstate) (raw : string)
| SNum (stk : list frame) (ns : numstate) (lit : string)
| SLit (stk : list frame) (rest : string) (v : value)
| SEndTop (v : value).

Definition maxNestingDepth : Z := 10000.

Definition isSpace (c : ascii) : bool :=
  (u8 c <=? 32)
  && (Ascii.eqb c " " || (u8 c =? 9) || (u8 c =? 13) || (u8 c =? 10)).

Definition isHex (c : ascii) : bool :=
  match hexval c with Some _ => true | None => false end.

Definition snoc (s : string) (c : ascii) : string := s +:+ String c EmptyString.

(** A finished value goes to the innermost open array or object, or ends
    the top-level value. *)
Definition deliver (stk : list frame) (v : value) : option state :=
  match stk with
  | [] => Some (SEndTop v)
  | FArr done :: r => Some (SPos (FArr (v :: done) :: r) EndValue)
  | FVal done k :: r => Some (SPos (FNext ((k, v) :: done) :: r) EndValue)
  | FKey done :: r =>
    match v with
    | Str k => Some (SPos (FColon done k :: r) EndValue)
    | _ => None
    end
  | _ => None
  end.

Definition pushParseState (stk : list frame) (f : frame) (p : pos)
  : option state :=
  if Z.of_nat (length (f :: stk)) <=? maxNestingDepth
  then Some (SPos (f :: stk) p) else None.

Definition stateBeginValue (stk : list frame) (c : ascii) : option state :=
  if Ascii.eqb c "{" then pushParseState stk (FKey []) BeginStringOrEmpty
  else if Ascii.eqb c "[" then pushParseState stk (FArr []) BeginValueOrEmpty
  else if Ascii.eqb c dquote then Some (SStr stk InString EmptyString)
  else if Ascii.eqb c "-" then Some (SNum stk sNeg "-")
  else if Ascii.eqb c "0" then Some (SNum stk s0 "0")
  else if Ascii.eqb c "t" then Some (SLit stk "rue" (Bool true))
  else if Ascii.eqb c "f" then Some (SLit stk "alse" (Bool false))
  else if Ascii.eqb c "n" then Some (SLit stk "ull" Null)
  else if (49 <=? u8 c) && (u8 c <=? 57)
  then Some (SNum stk s1 (String c EmptyString))
  else None.

(** [stateEndValue] on a byte that is not a space, inside an array or an
    object. *)
Definition stateEndValue (stk : list frame) (c : ascii) : option state :=
  match stk with
  | FColon done k :: r =>
    if Ascii.eqb c ":" then Some (SPos (FVal done k :: r) BeginValue) else None
  | FNext done :: r =>
    if Ascii.eqb c "," then Some (SPos (FKey done :: r) BeginString)
    else if Ascii.eqb c "}" then deliver r (Object (rev done))
    else None
  | FArr done :: r =>
    if Ascii.eqb c "," then Some (SPos (FArr done :: r) BeginValue)
    else if Ascii.eqb c "]" then deliver r (Array (rev done))
    else None
  | _ => None
  end.

(** The step functions between tokens, and [stateEndTop]. *)
Definition stepPos (st : state) (c : ascii) : option state :=
  match st with
  | SEndTop v => if isSpace c then Some (SEndTop v) else None
  | SPos stk p =>
    if isSpace c then Some (SPos stk p)
    else
      match p with
      | BeginValue => stateBeginValue stk c
      | BeginValueOrEmpty =>
        if Ascii.eqb c "]" then stateEndValue stk c else stateBeginValue stk c
      | BeginStringOrEmpty =>
        if Ascii.eqb c "}" then
          match stk with
          | FKey done :: r => stateEndValue (FNext done :: r) c
          | _ => None
          end
        else if Ascii.eqb c dquote then Some (SStr stk InString EmptyString)
        else None
      | BeginString =>
        if Ascii.eqb c dquote then Some (SStr stk InString EmptyString)
        else None
      | EndValue => stateEndValue stk c
      end
  | _ => None
  end.

(** A literal is complete before the byte [c]: deliver it, then let
    [stateEndValue] see [c]. *)
Definition endLiteral (stk : list frame) (v : value) (c : ascii)
  : option state :=
  match deliver stk v with
  | Some st => stepPos st c
  | None => None
  end.

Definition stepNum (stk : list frame) (ns : numstate) (lit : string)
    (c : ascii) : option state :=
  let digit := strconv.isDigit c in
  let more ns' := Some (SNum stk ns' (snoc lit c)) in
  let state0 :=
    if Ascii.eqb c "." then more sDot
    else if Ascii.eqb c "e" || Ascii.eqb c "E" then more sE
    else endLiteral stk (Number lit) c in
  let stateESign := if digit then more sE0 else None in
  match ns with
  | sNeg =>
    if Ascii.eqb c "0" then more s0
    else if (49 <=? u8 c) && (u8 c <=? 57) then more s1
    else None
  | s1 => if digit then more s1 else state0
  | s0 => state0
  | sDot => if digit then more sDot0 else None
  | sDot0 =>
    if digit then more sDot0
    else if Ascii.eqb c "e" || Ascii.eqb c "E" then more sE
    else endLiteral stk (Number lit) c
  | sE =>
    if Ascii.eqb c "+" || Ascii.eqb c "-" then more sESign else stateESign
  | sESign => stateESign
  | sE0 => if digit then more sE0 else endLiteral stk (Number lit) c
  end.

Definition stepStr (stk : list frame) (ss : strstate) (raw : string)
    (c : ascii) : option state :=
  match ss with
  | InString =>
    if Ascii.eqb c dquote then
      match unquoteLoop raw with
      | Some s => deliver stk (Str s)
      | None => None
      end
    else if Ascii.eqb c "\" then Some (SStr stk InStringEsc (snoc raw c))
    else if u8 c <? 0x20 then None
    else Some (SStr stk InString (snoc raw c))
  | InStringEsc =>
    if Ascii.eqb c "b" || Ascii.eqb c "f" || Ascii.eqb c "n"
       || Ascii.eqb c "r" || Ascii.eqb c "t" || Ascii.eqb c "\"
       || Ascii.eqb c "/" || Ascii.eqb c dquote
    then Some (SStr stk InString (snoc raw c))
    else if Ascii.eqb c "u" then Some (SStr stk (InStringEscU 4) (snoc raw c))
    else None
  | InStringEscU n =>
    if isHex c then
      match n with
      | S (S n') => Some (SStr stk (InStringEscU (S n')) (snoc raw c))
      | _ => Some (SStr stk InString (snoc raw c))
      end
    else None
  end.

Definition step (st : state) (c : ascii) : option state :=
  match st with
  | SPos _ _ | SEndTop _ => stepPos st c
  | SStr stk ss raw => stepStr stk ss raw c
  | SNum stk ns lit => stepNum stk ns lit c
  | SLit stk rest v =>
    match rest with
    | String e EmptyString => if Ascii.eqb c e then deliver stk v else None
    | String e rest' => if Ascii.eqb c e then Some (SLit stk rest' v) else None
    | EmptyString => None
    end
  end.

Fixpoint run (st : state) (data : string) : option state :=
  match data with
  | EmptyString => Some st
  | String c t =>
    match step st c with
    | Some st' => run st' t
    | None => None
    end
  end.

(** [checkValid] followed by reading the value: the scanner runs over all
    of [data]; at the end of the input it is given one space, after which
    the top-level value must be complete. *)
Definition parse (data : string) : option value :=
  match run (SPos [] BeginValue) data with
  | Some st =>
    match step st " " with
    | Some (SEndTop v) => Some v
    | _ => None
    end
  | None => None
  end.

(** *** Typed encoding and decoding

    Go's reflection-driven encoders and decoders, one instance per type.
    [encode] fails ([None]) on an unsupported value.  [decode v cur] stores
    [v] into a variable whose current content is [cur]; [None] stands for
    a non-nil error of [Unmarshal] (the partly filled variable is not
    observed by this program when an error is returned). *)
Class Encoder (A : Type) : Type := encode : A -> option string.
Class Decoder (A : Type) : Type := {
  zero : A;
  decode : value -> A -> option A
}.

#[global] Instance string_encoder : Encoder string :=
  fun s => Some (appendString s).
#[global] Instance string_decoder : Decoder string := {
  zero := EmptyString;
  decode v cur :=
    match v with
    | Str s => Some s
    | Null => Some cur
    | _ => None
    end
}.

#[global] Instance bool_encoder : Encoder bool :=
  fun b => Some (if b then "true" else "false").
#[global] Instance bool_decoder : Decoder bool := {
  zero := false;
  decode v cur :=
    match v with
    | Bool b => Some b
    | Null => Some cur
    | _ => None
    end
}.

(** [int] and [int64] (both 64 bits wide). *)
#[global] Instance int_encoder : Encoder Z :=
  fun i => Some (strconv.FormatInt i).
#[global] Instance int_decoder : Decoder Z := {
  zero := 0;
  decode v cur :=
    match v with
    | Number lit => strconv.ParseInt lit
    | Null => Some cur
    | _ => None
    end
}.

(** [floatEncoder] for 64 bits: format [e] below 1e-6 and from 1e21 on,
    with a two-digit exponent [e-0x] shortened to [e-x]. *)
Definition cleanExp (b : string) : string :=
  match String.rev b with
  | String d (String "0" (String sgn (String "e" r))) =>
    if Ascii.eqb sgn "-" || Ascii.eqb sgn "+"
    then String.rev (String d (String sgn (String "e" r)))
    else b
  | _ => b
  end.

#[global] Instance float64_encoder : Encoder strconv.float64 :=
  fun f =>
    match f with
    | S754_nan | S754_infinity _ => None
    | _ =>
      let abs := SFabs f in
      let small := SFltb abs (strconv.nearest_dec false 1 (-6)) in
      let large := negb (SFltb abs (strconv.nearest_dec false 1 21)) in
      let nonzero := match f with S754_zero _ => false | _ => true end in
      if nonzero && (small || large)
      then Some (cleanExp (strconv.FormatFloat f "e"))
      else Some (strconv.FormatFloat f "f")
    end.
#[global] Instance float64_decoder : Decoder strconv.float64 := {
  zero := S754_zero false;
  decode v cur :=
    match v with
    | Number lit => strconv.ParseFloat lit
    | Null => Some cur
    | _ => None
    end
}.

(** Slices.  A nil slice and an empty slice are both the empty list (a nil
    slice is never marshalled by this program; it would be written
    [null]). *)
Fixpoint join (sep : string) (l : list string) : string :=
  match l with
  | [] => EmptyString
  | [x] => x
  | x :: l' => x +:+ sep +:+ join sep l'
  end.

Fixpoint sequence {A : Type} (l : list (option A)) : option (list A) :=
  match l with
  | [] => Some []
  | Some x :: l' =>
    match sequence l' with
    | Some xs => Some (x :: xs)
    | None => None
    end
  | None :: _ => None
  end.

#[global] Instance slice_encoder {A : Type} `{Encoder A} : Encoder (list A) :=
  fun l =>
    match sequence (map encode l) with
    | Some ss => Some ("[" +:+ join "," ss +:+ "]")
    | None => None
    end.

(** An array element is decoded into the element already at its index;
    past the current length the element starts from the zero value (with
    a repeated key the source may find older data in the spare capacity of
    the slice there). *)
Fixpoint decodeElems {A : Type} `{Decoder A} (l : list value) (cur : list A)
  : option (list A) :=
  match l with
  | [] => Some []
  | v :: l' =>
    let '(c, cur') :=
      match cur with
      | [] => (zero, [])
      | c :: cur' => (c, cur')
      end in
    match decode v c with
    | Some x =>
      match decodeElems l' cur' with
      | Some xs => Some (x :: xs)
      | None => None
      end
    | None => None
    end
  end.

#[global] Instance slice_decoder {A : Type} `{Decoder A} : Decoder (list A) := {
  zero := [];
  decode v cur :=
    match v with
    | Array l => decodeElems l cur
    | Null => Some []
    | _ => None
    end
}.

(** Structs.  A field is its JSON name with the function storing a value
    into it. *)
Definition field (T : Type) : Type := string * (value -> T -> option T).

(** [foldName]: ASCII letters to upper case, other runes to the smallest
    rune of their fold orbit.  Only two runes outside ASCII fold to an
    ASCII letter (U+017F to S, U+212A to K); the others are kept, since
    names are only compared with the ASCII names of the fields. *)
Definition foldRune (r : Z) : Z :=
  if r =? 0x17F then 0x53 else if r =? 0x212A then 0x4B else r.

Fixpoint foldName (s : string) : string :=
  match s with
  | EmptyString => EmptyString
  | String c r0 =>
    if u8 c <? utf8.RuneSelf then
      String (if (97 <=? u8 c) && (u8 c <=? 122) then byte (u8 c - 32) else c)
             (foldName r0)
    else
      let '(r, n) := utf8.DecodeRuneInString s in
      let out := utf8.EncodeRune (foldRune r) in
      match n, r0 with
      | 2%nat, String _ r1 => out +:+ foldName r1
      | 3%nat, String _ (String _ r2) => out +:+ foldName r2
      | 4%nat, String _ (String _ (String _ r3)) => out +:+ foldName r3
      | _, _ => out +:+ foldName r0
      end
  end.

(** The field for a key: by exact name, else by folded name. *)
Definition findField {T : Type} (fields : list (field T)) (key : string)
  : option (field T) :=
  match find (fun f => String.eqb (fst f) key) fields with
  | Some f => Some f
  | None =>
    find (fun f => String.eqb (foldName (fst f)) (foldName key)) fields
  end.

(** Members are stored in the order of the input; a key without a field
    is skipped. *)
Fixpoint decodeMembers {T : Type} (fields : list (field T))
    (ms : list (string * value)) (cur : T) : option T :=
  match ms with
  | [] => Some cur
  | (k, v) :: ms' =>
    match findField fields k with
    | Some f =>
      match snd f v cur with
      | Some cur' => decodeMembers fields ms' cur'
      | None => None
      end
    | None => decodeMembers fields ms' cur
    end
  end.

Definition decodeStruct {T : Type} (fields : list (field T)) (v : value)
    (cur : T) : option T :=
  match v with
  | Object ms => decodeMembers fields ms cur
  | Null => Some cur
  | _ => None
  end.

Definition member (name : string) (enc : option string) : option string :=
  match enc with
  | Some e => Some (appendString name +:+ ":" +:+ e)
  | None => None
  end.

Definition encodeStruct (members : list (option string)) : option string :=
  match sequence members with
  | Some ms => Some ("{" +:+ join "," ms +:+ "}")
  | None => None
  end.

(** [json.Marshal(v)] and [json.Unmarshal(data, &x)] with [cur] the
    content of [x] before the call. *)
Definition Marshal {A : Type} `{Encoder A} (v : A) : option string := encode v.

Definition Unmarshal {A : Type} `{Decoder A} (data : string) (cur : A)
  : option A :=
  match parse data with
  | Some v => decode v cur
  | None => None
  end.

End json.

(** ** The data types of main.go *)

(** [Message]: a single message for the API. *)
Record Message : Type := {
  Role : string;
  Content : string
}.

(** [DeepSeekRequestPayload]: the request structure. *)
Record DeepSeekRequestPayload : Type := {
  Model : string;
  Messages : list Message;
  Stream : bool;
  MaxTokens : Z;
  Temperature : strconv.float64
}.

(** [Choice]: a single response option.  (Its field [Message] is named
    [ChoiceMessage] here, the name being taken by the type.) *)
Record Choice : Type := {
  Index : Z;
  ChoiceMessage : Message;
  FinishReason : string
}.

(** [UsageInfo]: token usage. *)
Record UsageInfo : Type := {
  PromptTokens : Z;
  CompletionTokens : Z;
  TotalTokens : Z
}.

(** [DeepSeekResponsePayload]: the response structure.  (Its field [Model]
    is named [ResponseModel] here.) *)
Record DeepSeekResponsePayload : Type := {
  ID : string;
  Object : string;
  Created : Z;
  ResponseModel : string;
  Choices : list Choice;
  Usage : UsageInfo
}.

(** *** The [json:"..."] tags as encoders and decoders *)

#[global] Instance Message_encoder : json.Encoder Message := fun m =>
  json.encodeStruct
    [ json.member "role" (json.encode (Role m));
      json.member "content" (json.encode (Content m)) ].

#[global] Instance Message_decoder : json.Decoder Message := {
  zero := {| Role := json.zero; Content := json.zero |};
  decode := json.decodeStruct
    [ ("role", fun v m =>
         x ← json.decode v (Role m);
         Some {| Role := x; Content := Content m |});
      ("content", fun v m =>
         x ← json.decode v (Content m);
         Some {| Role := Role m; Content := x |}) ]
}.

#[global] Instance DeepSeekRequestPayload_encoder
  : json.Encoder DeepSeekRequestPayload := fun p =>
  json.encodeStruct
    [ json.member "model" (json.encode (Model p));
      json.member "messages" (json.encode (Messages p));
      json.member "stream" (json.encode (Stream p));
      json.member "max_tokens" (json.encode (MaxTokens p));
      json.member "temperature" (json.encode (Temperature p)) ].

#[global] Instance DeepSeekRequestPayload_decoder
  : json.Decoder DeepSeekRequestPayload := {
  zero := {| Model := json.zero; Messages := json.zero; Stream := json.zero;
             MaxTokens := json.zero; Temperature := json.zero |};
  decode := json.decodeStruct
    [ ("model", fun v p =>
         x ← json.decode v (Model p);
         Some {| Model := x; Messages := Messages p; Stream := Stream p;
                 MaxTokens := MaxTokens p; Temperature := Temperature p |});
      ("messages", fun v p =>
         x ← json.decode v (Messages p);
         Some {| Model := Model p; Messages := x; Stream := Stream p;
                 MaxTokens := MaxTokens p; Temperature := Temperature p |});
      ("stream", fun v p =>
         x ← json.decode v (Stream p);
         Some {| Model := Model p; Messages := Messages p; Stream := x;
                 MaxTokens := MaxTokens p; Temperature := Temperature p |});
      ("max_tokens", fun v p =>
         x ← json.decode v (MaxTokens p);
         Some {| Model := Model p; Messages := Messages p; Stream := Stream p;
                 MaxTokens := x; Temperature := Temperature p |});
      ("temperature", fun v p =>
         x ← json.decode v (Temperature p);
         Some {| Model := Model p; Messages := Messages p; Stream := Stream p;
                 MaxTokens := MaxTokens p; Temperature := x |}) ]
}.

#[global] Instance Choice_decoder : json.Decoder Choice := {
  zero := {| Index := json.zero; ChoiceMessage := json.zero;
             FinishReason := json.zero |};
  decode := json.decodeStruct
    [ ("index", fun v c =>
         x ← json.decode v (Index c);
         Some {| Index := x; ChoiceMessage := ChoiceMessage c;
                 FinishReason := FinishReason c |});
      ("message", fun v c =>
         x ← json.decode v (ChoiceMessage c);
         Some {| Index := Index c; ChoiceMessage := x;
                 FinishReason := FinishReason c |});
      ("finish_reason", fun v c =>
         x ← json.decode v (FinishReason c);
         Some {| Index := Index c; ChoiceMessage := ChoiceMessage c;
                 FinishReason := x |}) ]
}.

#[global] Instance UsageInfo_decoder : json.Decoder UsageInfo := {
  zero := {| PromptTokens := json.zero; CompletionTokens := json.zero;
             TotalTokens := json.zero |};
  decode := json.decodeStruct
    [ ("prompt_tokens", fun v u =>
         x ← json.decode v (PromptTokens u);
         Some {| PromptTokens := x; CompletionTokens := CompletionTokens u;
                 TotalTokens := TotalTokens u |});
      ("completion_tokens", fun v u =>
         x ← json.decode v (CompletionTokens u);
         Some {| PromptTokens := PromptTokens u; CompletionTokens := x;
                 TotalTokens := TotalTokens u |});
      ("total_tokens", fun v u =>
         x ← json.decode v (TotalTokens u);
         Some {| PromptTokens := PromptTokens u;
                 CompletionTokens := CompletionTokens u; TotalTokens := x |}) ]
}.

#[global] Instance DeepSeekResponsePayload_decoder
  : json.Decoder DeepSeekResponsePayload := {
  zero := {| ID := json.zero; Object := json.zero; Created := json.zero;
             ResponseModel := json.zero; Choices := json.zero;
             Usage := json.zero |};
  decode := json.decodeStruct
    [ ("id", fun v r =>
         x ← json.decode v (ID r);
         Some {| ID := x; Object := Object r; Created := Created r;
                 ResponseModel := ResponseModel r; Choices := Choices r;
                 Usage := Usage r |});
      ("object", fun v r =>
         x ← json.decode v (Object r);
         Some {| ID := ID r; Object := x; Created := Created r;
                 ResponseModel := ResponseModel r; Choices := Choices r;
                 Usage := Usage r |});
      ("created", fun v r =>
         x ← json.decode v (Created r);
         Some {| ID := ID r; Object := Object r; Created := x;
                 ResponseModel := ResponseModel r; Choices := Choices r;
                 Usage := Usage r |});
      ("model", fun v r =>
         x ← json.decode v (ResponseModel r);
         Some {| ID := ID r; Object := Object r; Created := Created r;
                 ResponseModel := x; Choices := Choices r; Usage := Usage r |});
      ("choices", fun v r =>
         x ← json.decode v (Choices r);
         Some {| ID := ID r; Object := Object r; Created := Created r;
                 ResponseModel := ResponseModel r; Choices := x;
                 Usage := Usage r |});
      ("usage", fun v r =>
         x ← json.decode v (Usage r);
         Some {| ID := ID r; Object := Object r; Created := Created r;
                 ResponseModel := ResponseModel r; Choices := Choices r;
                 Usage := x |}) ]
}.

(** ** net/http, gin and the log *)

Module http.

Definition StatusOK : Z := 200.
Definition StatusBadRequest : Z := 400.
Definition StatusInternalServerError : Z := 500.

(** [http.Header] and [Header.Set]. *)
Definition Header_Set (key val : string) (h : gmap string (list string))
  : gmap string (list string) := <[key := [val]]> h.

(** An outbound request as [http.NewRequest] builds it. *)
Record Request : Type := {
  Method : string;
  URL : string;
  Header : gmap string (list string);
  Body : string
}.

(** What [io.ReadAll(resp.Body)] returns. *)
Inductive ReadAll : Type :=
| ReadOk (body : string)
| ReadErr (err : string).

(** A response of the upstream server. *)
Record Response : Type := {
  StatusCode : Z;
  ResponseBody : ReadAll
}.

(** What [client.Do(req)] returns: a transport error (which includes the
    60 second timeout of the client) or a response. *)
Inductive Do : Type :=
| DoErr (err : string)
| DoOk (resp : Response).

End http.

(** The errors that reach a log line. *)
Inductive error : Type :=
| MarshalError
| UnmarshalError
| ExternalError (text : string).

(** A call of [log.Printf] or [log.Println]: the format and its arguments. *)
Inductive logarg : Type :=
| ArgString (s : string)
| ArgInt (n : Z)
| ArgError (e : error).

Record logline : Type := {
  format : string;
  args : list logarg
}.

Module gin.

(** The part of [gin.Context] the handler uses: the parsed query of the
    inbound request, and the response written so far. *)
Record Context : Type := {
  queryCache : gmap string (list string);
  status : option Z;
  written : string
}.

(** [c.Query(key)]: the first value of the key, or the empty string when
    the key is absent.  (A parsed query never holds a key without a value;
    the source would index an empty slice there.) *)
Definition Query (c : Context) (key : string) : string :=
  match queryCache c !! key with
  | Some (v :: _) => v
  | _ => EmptyString
  end.

(** [c.String(code, text)] without format arguments: the status is set
    unless one was written before, and [text] is written as it is. *)
Definition String (code : Z) (text : string) (c : Context) : Context :=
  {| queryCache := queryCache c;
     status := match status c with Some s => Some s | None => Some code end;
     written := written c +:+ text |}.

(** A fresh context for an inbound request. *)
Definition new (query : gmap string (list string)) : Context :=
  {| queryCache := query; status := None; written := EmptyString |}.

End gin.

(** ** The world outside the handler

    [apiKey] is read at start-up.  [NewRequest] is the error, if any, of
    [http.NewRequest] (with the constant method and URL of this program the
    call does not fail; the world may still make it fail, which covers that
    branch of the source).  [upstream] answers an outbound request. *)
Record World : Type := {
  apiKey : string;
  NewRequest : option string;
  upstream : http.Request -> http.Do
}.

(** ** The state a run of the handler threads: the context, the log, and
    the requests sent upstream (both most recent last). *)
Record Run : Type := {
  ctx : gin.Context;
  log : list logline;
  sent : list http.Request
}.

(** A handler action either goes on with a value or has executed
    [return]. *)
Definition M (A : Type) : Type := Run -> Run * option A.

Definition ret {A : Type} (a : A) : M A := fun r => (r, Some a).

Definition bind {A B : Type} (m : M A) (k : A -> M B) : M B := fun r =>
  match m r with
  | (r', Some a) => k a r'
  | (r', None) => (r', None)
  end.

Notation "x <- m ;; k" := (bind m (fun x => k))
  (at level 100, m at next level, right associativity).
Notation "m ;; k" := (bind m (fun _ => k))
  (at level 100, right associativity).

Definition return_ {A : Type} : M A := fun r => (r, None).

Definition c_Query (key : string) : M string := fun r =>
  (r, Some (gin.Query (ctx r) key)).

Definition c_String (code : Z) (text : string) : M unit := fun r =>
  ({| ctx := gin.String code text (ctx r); log := log r; sent := sent r |},
   Some tt).

Definition log_Printf (fmt : string) (a : list logarg) : M unit := fun r =>
  ({| ctx := ctx r; log := log r ++ [{| format := fmt; args := a |}];
      sent := sent r |}, Some tt).

Definition client_Do (w : World) (req : http.Request) : M http.Do := fun r =>
  ({| ctx := ctx r; log := log r; sent := sent r ++ [req] |},
   Some (upstream w req)).

(** ** The handler of [GET /] *)

Definition apiUrl : string := "https://llm.chutes.ai/v1/chat/completions".

(** The Go constant [0.7] as a float64. *)
Definition temperature_0_7 : strconv.float64 := strconv.nearest_dec false 7 (-1).

(** The payload built for a query (lines 77 to 83). *)
Definition payload (query : string) : DeepSeekRequestPayload :=
  {| Model := "deepseek-ai/DeepSeek-R1";
     Messages := [ {| Role := "user"; Content := query |} ];
     Stream := false;
     MaxTokens := 1024;
     Temperature := temperature_0_7 |}.

(** The request sent upstream (lines 101 to 109). *)
Definition outbound (w : World) (jsonPayload : string) : http.Request :=
  {| http.Method := "POST";
     http.URL := apiUrl;
     http.Header :=
       http.Header_Set "Authorization" ("Bearer " +:+ apiKey w)
         (http.Header_Set "Content-Type" "application/json" ∅);
     http.Body := jsonPayload |}.

Definition msg_missing_query : string :=
  "Please provide a query with the 'q' parameter. Example: /?q=Hello".
Definition msg_internal : string := "Internal server error.".
Definition msg_unreachable : string :=
  "Failed to contact DeepSeek LLM. Please try again later.".
Definition msg_upstream_error : string :=
  "Error from DeepSeek LLM. Please try again later.".
Definition msg_invalid_format : string :=
  "Internal server error: invalid response format from DeepSeek LLM.".
Definition msg_no_answer : string :=
  "DeepSeek LLM could not generate a response to your query.".

Definition handler (w : World) : M unit :=
  query <- c_Query "q" ;;
  if String.eqb query EmptyString then
    c_String http.StatusBadRequest msg_missing_query ;;
    return_
  else
  log_Printf "Received request for DeepSeek: %s" [ArgString query] ;;
  match json.Marshal (payload query) with
  | None =>
    log_Printf "Error marshaling JSON request for DeepSeek: %v"
               [ArgError MarshalError] ;;
    c_String http.StatusInternalServerError msg_internal ;;
    return_
  | Some jsonPayload =>
  match NewRequest w with
  | Some err =>
    log_Printf "Error creating HTTP request for DeepSeek: %v"
               [ArgError (ExternalError err)] ;;
    c_String http.StatusInternalServerError msg_internal ;;
    return_
  | None =>
  resp <- client_Do w (outbound w jsonPayload) ;;
  match resp with
  | http.DoErr err =>
    log_Printf "Error sending request to DeepSeek API: %v"
               [ArgError (ExternalError err)] ;;
    c_String http.StatusInternalServerError msg_unreachable ;;
    return_
  | http.DoOk resp =>
  match http.ResponseBody resp with
  | http.ReadErr err =>
    log_Printf "Error reading response body from DeepSeek API: %v"
               [ArgError (ExternalError err)] ;;
    c_String http.StatusInternalServerError msg_internal ;;
    return_
  | http.ReadOk body =>
  if negb (http.StatusCode resp =? http.StatusOK) then
    log_Printf "Error from DeepSeek API. Status: %d, Body: %s"
               [ArgInt (http.StatusCode resp); ArgString body] ;;
    c_String http.StatusInternalServerError msg_upstream_error ;;
    return_
  else
  match json.Unmarshal body (json.zero : DeepSeekResponsePayload) with
  | None =>
    log_Printf "Error decoding JSON response from DeepSeek API: %v"
               [ArgError UnmarshalError] ;;
    c_String http.StatusInternalServerError msg_invalid_format ;;
    return_
  | Some deepseekResponse =>
  match Choices deepseekResponse with
  | choice0 :: _ =>
    if negb (String.eqb (Content (ChoiceMessage choice0)) EmptyString) then
      let llmText := Content (ChoiceMessage choice0) in
      log_Printf "DeepSeek LLM response: %s" [ArgString llmText] ;;
      c_String http.StatusOK llmText
    else
      log_Printf "DeepSeek LLM did not provide a text response." [] ;;
      c_String http.StatusOK msg_no_answer
  | [] =>
    log_Printf "DeepSeek LLM did not provide a text response." [] ;;
    c_String http.StatusOK msg_no_answer
  end end end end end end.

(** One inbound request: the handler runs on a fresh context, with an empty
    log and nothing sent. *)
Definition serve (w : World) (query : gmap string (list string)) : Run :=
  fst (handler w {| ctx := gin.new query; log := []; sent := [] |}).

(** The HTTP response the caller sees. *)
Definition response (r : Run) : option Z * string :=
  (gin.status (ctx r), gin.written (ctx r)).

(** ** The bytes sent upstream *)

Definition wire_prefix : string :=
  "{" +:+ json.appendString "model" +:+ ":"
      +:+ json.appendString "deepseek-ai/DeepSeek-R1" +:+ ","
      +:+ json.appendString "messages" +:+ ":[{"
      +:+ json.appendString "role" +:+ ":" +:+ json.appendString "user" +:+ ","
      +:+ json.appendString "content" +:+ ":".

Definition wire_suffix : string :=
  "}]," +:+ json.appendString "stream" +:+ ":false,"
        +:+ json.appendString "max_tokens" +:+ ":1024,"
        +:+ json.appendString "temperature" +:+ ":0.7}".

(** The JSON text of the payload for a query. *)
Definition wire (query : string) : string :=
  wire_prefix +:+ json.appendString query +:+ wire_suffix.

(** The value [c.Query("q")] of an inbound request. *)
Definition first_query (query : gmap string (list string)) : string :=
  gin.Query (gin.new query) "q".

(** A world whose upstream answers every request with one response. *)
Definition answering (key : string) (code : Z) (body : string) : World :=
  {| apiKey := key;
     NewRequest := None;
     upstream := fun _ =>
       http.DoOk {| http.StatusCode := code;
                    http.ResponseBody := http.ReadOk body |} |}.

(** The query string [?q=v]. *)
Definition q_is (v : string) : gmap string (list string) := {[ "q" := [v] ]}.

(** A response body with one choice whose message has the given content. *)
Definition body_with_content (content : string) : string :=
  "{" +:+ json.appendString "choices" +:+ ":[{"
      +:+ json.appendString "message" +:+ ":{"
      +:+ json.appendString "content" +:+ ":"
      +:+ json.appendString content +:+ "}}]}".

(** What lines 134 to 151 answer for the body of a response: the
    parse-and-extract path. *)
Definition relay (body : string) : option Z * string :=
  match json.Unmarshal body (json.zero : DeepSeekResponsePayload) with
  | None => (Some 500, msg_invalid_format)
  | Some r =>
    match Choices r with
    | c0 :: _ =>
      if String.eqb (Content (ChoiceMessage c0)) EmptyString
      then (Some 200, msg_no_answer)
      else (Some 200, Content (ChoiceMessage c0))
    | [] => (Some 200, msg_no_answer)
    end
  end.

(** The decoded response with one choice that has only a content. *)
Definition one_choice (content : string) : DeepSeekResponsePayload :=
  {| ID := EmptyString; Object := EmptyString; Created := 0;
     ResponseModel := EmptyString;
     Choices := [ {| Index := 0;
                     ChoiceMessage := {| Role := EmptyString; Content := content |};
                     FinishReason := EmptyString |} ];
     Usage := {| PromptTokens := 0; CompletionTokens := 0; TotalTokens := 0 |} |}.

(** The fixed texts of the HTTP 500 answers. *)
Definition failure_texts : list string :=
  [msg_internal; msg_unreachable; msg_upstream_error; msg_invalid_format].

(** ** Auxiliary notions for the codec proofs *)

(** What [utf8.first] says of a leading byte: the size of the sequence and
    the range accepted for its second byte. *)
Definition lead_ok (b : Z) (sz : nat) (lo hi : Z) : Prop :=
  (sz = 2%nat /\ 0xC2 <= b <= 0xDF /\ lo = 0x80 /\ hi = 0xBF)
  \/ (sz = 3%nat /\ 0xE0 <= b <= 0xEF
      /\ lo = (if b =? 0xE0 then 0xA0 else 0x80)
      /\ hi = (if b =? 0xED then 0x9F else 0xBF))
  \/ (sz = 4%nat /\ 0xF0 <= b <= 0xF4
      /\ lo = (if b =? 0xF0 then 0x90 else 0x80)
      /\ hi = (if b =? 0xF4 then 0x8F else 0xBF)).

(** The runes [utf8.DecodeRuneInString] computes from two, three and four
    bytes. *)
Definition rune2 (b0 b1 : ascii) : Z :=
  Z.lor (Z.shiftl (Z.land (u8 b0) utf8.mask2) 6) (Z.land (u8 b1) utf8.maskx).
Definition rune3 (b0 b1 b2 : ascii) : Z :=
  Z.lor (Z.lor (Z.shiftl (Z.land (u8 b0) utf8.mask3) 12)
               (Z.shiftl (Z.land (u8 b1) utf8.maskx) 6))
        (Z.land (u8 b2) utf8.maskx).
Definition rune4 (b0 b1 b2 b3 : ascii) : Z :=
  Z.lor (Z.lor (Z.lor (Z.shiftl (Z.land (u8 b0) utf8.mask4) 18)
                      (Z.shiftl (Z.land (u8 b1) utf8.maskx) 12))
               (Z.shiftl (Z.land (u8 b2) utf8.maskx) 6))
        (Z.land (u8 b3) utf8.maskx).

(** All bytes are outside ASCII. *)
Fixpoint high (s : string) : Prop :=
  match s with
  | EmptyString => True
  | String c t => 0x80 <= u8 c /\ high t
  end.

(** A valid sequence of two to four bytes, with its rune. *)
Definition valid_chunk (chunk : string) (c : Z) (size : nat) : Prop :=
  (size = 2 \/ size = 3 \/ size = 4)%nat
  /\ String.length chunk = size
  /\ high chunk
  /\ utf8.EncodeRune c = chunk
  /\ forall t, utf8.DecodeRuneInString (chunk +:+ t) = (c, size).

(** What [appendString] writes for a valid sequence. *)
Definition escaped (chunk : string) (c : Z) : string :=
  if (c =? 0x2028) || (c =? 0x2029)
  then "\u202" +:+ String (json.hexchar (Z.land c 0xF)) EmptyString
  else chunk.

(** What [appendString] writes for an invalid byte. *)
Definition escape_bad : string := ("\" +:+ "ufffd").

(** The string states of the scanner alone; a closing quote stops. *)
Definition strstep (ss : json.strstate) (c : ascii) : option json.strstate :=
  match ss with
  | json.InString =>
    if Ascii.eqb c dquote then None
    else
      match json.stepStr [] ss EmptyString c with
      | Some (json.SStr _ ss' _) => Some ss'
      | _ => None
      end
  | _ =>
    match json.stepStr [] ss EmptyString c with
    | Some (json.SStr _ ss' _) => Some ss'
    | _ => None
    end
  end.

Fixpoint strrun (ss : json.strstate) (s : string) : option json.strstate :=
  match s with
  | EmptyString => Some ss
  | String c t =>
    match strstep ss c with
    | Some ss' => strrun ss' t
    | None => None
    end
  end.

(** The stack of the scanner where the content of the message starts. *)
Definition content_stack : list json.frame :=
  [ json.FVal [("role", json.Str "user")] "content";
    json.FArr [];
    json.FVal [("model", json.Str "deepseek-ai/DeepSeek-R1")] "messages" ].

(** The JSON value of the payload for a query. *)
Definition payload_value (query : string) : json.value :=
  json.Object
    [ ("model", json.Str "deepseek-ai/DeepSeek-R1");
      ("messages",
       json.Array
         [ json.Object [ ("role", json.Str "user"); ("content", json.Str query) ] ]);
      ("stream", json.Bool false);
      ("max_tokens", json.Number "1024");
      ("temperature", json.Number "0.7") ].

(** Only the JSON white space bytes (space, tab, carriage return, line
    feed). *)
Fixpoint whitespace_only (s : string) : bool :=
  match s with
  | EmptyString => true
  | String c t => json.isSpace c && whitespace_only t
  end.

(** The query of one byte 0xFF (as in [?q=%FF]) and the three bytes of
    U+FFFD. *)
Definition query_ff : string := String (byte 0xFF) EmptyString.
Definition replacement : string :=
  String (byte 0xEF) (String (byte 0xBF) (String (byte 0xBD) EmptyString)).

(** The log line written for every query that is present. *)
Definition received (q : string) : logline :=
  {| format := "Received request for DeepSeek: %s"; args := [ArgString q] |}.

(** [os.Getenv]: the value of the variable, or the empty string when it
    is not set. *)
Definition Getenv (env : gmap string string) (key : string) : string :=
  match env !! key with
  | Some v => v
  | None => EmptyString
  end.

(** The start of [main] (lines 54 to 59): [inl] is [log.Fatal] with its
    message, after which the process exits; [inr] is the key that the
    handler uses. *)
Definition main_start (env : gmap string string) : string + string :=
  let apiKey := Getenv env "CHUTES_API_TOKEN" in
  if String.eqb apiKey EmptyString
  then inl "Error: CHUTES_API_TOKEN environment variable is not set."
  else inr apiKey.

(** The text of [body_with_content] before the content. *)
Definition body_prefix : string :=
  "{" +:+ json.appendString "choices" +:+ ":[{"
      +:+ json.appendString "message" +:+ ":{"
      +:+ json.appendString "content" +:+ ":".

(** The scanner stack where the content of the first choice starts. *)
Definition choice_stack : list json.frame :=
  [ json.FVal [] "content"; json.FVal [] "message"; json.FArr [];
    json.FVal [] "choices" ].

(** A world whose upstream gives every request the same outcome. *)
Definition constant_world (key : string) (newRequest : option string)
    (outcome : http.Do) : World :=
  {| apiKey := key; NewRequest := newRequest; upstream := fun _ => outcome |}.

(** A query string with a second value for [q] and another parameter. *)
Definition q_with_more : gmap string (list string) :=
  {[ "q" := ["Hello"; "again"]; "lang" := ["en"] ]}.

(** [contains s t]: the text [t] occurs in [s]. *)
Definition contains (s t : string) : Prop :=
  exists before after, s = before +:+ t +:+ after.

(** The query of the one byte 0xFE. *)
Definition query_fe : string := String (byte 0xFE) EmptyString.

(** * Properties *)

#[local] Arguments String.append !s1 s2 : simpl nomatch.

Lemma append_assoc (a b c : string) : (a +:+ b) +:+ c = a +:+ (b +:+ c).
Proof. induction a as [|x a IH]; simpl; [reflexivity | now rewrite IH]. Qed.

Lemma encode_temperature : json.encode temperature_0_7 = Some "0.7".
Proof. vm_compute. reflexivity. Qed.

Lemma append_cons c a b : String c a +:+ b = String c (a +:+ b).
Proof. reflexivity. Qed.

Lemma append_nil b : EmptyString +:+ b = b.
Proof. reflexivity. Qed.

Lemma FormatInt_1024 : strconv.FormatInt 1024 = "1024".
Proof. vm_compute. reflexivity. Qed.

(** Marshalling the payload never fails and gives [wire]. *)
Lemma Marshal_payload query : json.Marshal (payload query) = Some (wire query).
Proof.
  unfold json.Marshal, payload.
  unfold json.encode at 1. unfold DeepSeekRequestPayload_encoder.
  cbv [Model Messages Stream MaxTokens Temperature].
  rewrite encode_temperature.
  cbv [json.encodeStruct json.member json.encode Message_encoder
       json.slice_encoder json.string_encoder json.bool_encoder
       json.int_encoder json.sequence map json.join Role Content].
  rewrite FormatInt_1024.
  unfold wire, wire_prefix, wire_suffix.
  f_equal. rewrite ?append_assoc, ?append_cons, ?append_nil.
  reflexivity.
Qed.

Ltac hsimpl :=
  cbn [ctx log sent gin.status gin.written gin.String gin.new gin.queryCache
       fst snd negb app String.append http.ResponseBody http.StatusCode].

Ltac run_handler :=
  unfold serve, handler, bind, c_Query, c_String, log_Printf, client_Do,
    return_, response;
  hsimpl.

Lemma first_query_q_is v : first_query (q_is v) = v.
Proof. reflexivity. Qed.

Lemma eqb_empty_false (s : string) : s <> EmptyString -> String.eqb s EmptyString = false.
Proof. intros H. apply String.eqb_neq. exact H. Qed.

Lemma serve_answered w query code body :
  first_query query <> EmptyString ->
  NewRequest w = None ->
  upstream w (outbound w (wire (first_query query))) =
    http.DoOk {| http.StatusCode := code; http.ResponseBody := http.ReadOk body |} ->
  response (serve w query) =
    (if code =? 200 then relay body else (Some 500, msg_upstream_error))
  /\ sent (serve w query) = [outbound w (wire (first_query query))].
Proof.
  intros Hq Hn Hu. unfold first_query in *. run_handler.
  rewrite (eqb_empty_false _ Hq). rewrite Marshal_payload, Hn.
  hsimpl. rewrite Hu.
  hsimpl. unfold http.StatusOK, relay.
  destruct (code =? 200); hsimpl; [|hsimpl; auto].
  destruct (json.Unmarshal _ _) as [r|]; [|hsimpl; auto].
  destruct (Choices r) as [|c0 ?]; [hsimpl; auto|].
  destruct (String.eqb _ _); hsimpl; auto.
Qed.

Lemma serve_missing w query :
  first_query query = EmptyString ->
  response (serve w query) = (Some 400, msg_missing_query)
  /\ sent (serve w query) = [].
Proof.
  unfold first_query. intros H. run_handler. rewrite H. hsimpl. auto.
Qed.

Lemma serve_sent w query :
  first_query query <> EmptyString ->
  NewRequest w = None ->
  sent (serve w query) = [outbound w (wire (first_query query))]
  /\ fst (response (serve w query)) <> Some 400.
Proof.
  intros Hq Hn. unfold first_query in *. run_handler.
  rewrite (eqb_empty_false _ Hq). rewrite Marshal_payload, Hn.
  hsimpl.
  destruct (upstream w _) as [err|resp]; [hsimpl; split; [auto|discriminate]|].
  destruct (http.ResponseBody resp) as [body|err];
    [|hsimpl; split; [auto|discriminate]].
  destruct (negb _); [hsimpl; split; [auto|discriminate]|].
  destruct (json.Unmarshal _ _) as [r|]; [|hsimpl; split; [auto|discriminate]].
  destruct (Choices r) as [|c0 ?]; [hsimpl; split; [auto|discriminate]|].
  destruct (negb _); hsimpl; split; auto; discriminate.
Qed.

Lemma serve_cases w query :
  response (serve w query) = (Some 400, msg_missing_query)
  \/ (exists text, response (serve w query) = (Some 200, text))
  \/ (exists text, response (serve w query) = (Some 500, text)
                   /\ In text failure_texts).
Proof.
  assert (Hin : forall text, In text failure_texts ->
            (Some 500, text) = (Some 400, msg_missing_query)
            \/ (exists t, (Some 500, text) = (Some 200, t))
            \/ (exists t, (Some 500, text) = (Some 500, t) /\ In t failure_texts))
    by (intros text Ht; right; right; exists text; auto).
  run_handler.
  destruct (String.eqb _ _) eqn:E; [hsimpl; auto|].
  rewrite Marshal_payload.
  destruct (NewRequest w);
    [hsimpl; apply Hin; unfold failure_texts; cbn [In]; tauto|].
  hsimpl.
  destruct (upstream w _) as [err|resp];
    [hsimpl; apply Hin; unfold failure_texts; cbn [In]; tauto|].
  destruct (http.ResponseBody resp) as [body|err];
    [|hsimpl; apply Hin; unfold failure_texts; cbn [In]; tauto].
  destruct (negb _);
    [hsimpl; apply Hin; unfold failure_texts; cbn [In]; tauto|].
  destruct (json.Unmarshal _ _) as [r|];
    [|hsimpl; apply Hin; unfold failure_texts; cbn [In]; tauto].
  destruct (Choices r) as [|c0 ?]; [hsimpl; eauto|].
  destruct (negb _); hsimpl; eauto.
Qed.

Lemma Unmarshal_body_with_content_Hi :
  json.Unmarshal (body_with_content "Hi") json.zero = Some (one_choice "Hi").
Proof. vm_compute. reflexivity. Qed.

Lemma Unmarshal_body_with_content_empty :
  json.Unmarshal (body_with_content EmptyString) json.zero
  = Some (one_choice EmptyString).
Proof. vm_compute. reflexivity. Qed.

Lemma Unmarshal_oops :
  json.Unmarshal "oops" (json.zero : DeepSeekResponsePayload) = None.
Proof. vm_compute. reflexivity. Qed.

Lemma answering_upstream key code body req :
  upstream (answering key code body) req =
  http.DoOk {| http.StatusCode := code; http.ResponseBody := http.ReadOk body |}.
Proof. reflexivity. Qed.

(** ** C2: a missing or empty query *)

(** C2.  When [q] is absent from the inbound request, or its first value is
    the empty string, the handler answers HTTP 400 with the fixed
    instructional message and sends nothing upstream. *)
Theorem C2_missing_query_400 (w : World) (query : gmap string (list string)) :
  (query !! "q" = None \/ exists rest, query !! "q" = Some (EmptyString :: rest)) ->
  response (serve w query) = (Some 400, msg_missing_query)
  /\ sent (serve w query) = [].
Proof.
  intros H. apply serve_missing. unfold first_query, gin.Query, gin.new.
  cbn [gin.queryCache]. destruct H as [H|[rest H]]; rewrite H; reflexivity.
Qed.

Lemma C2_witness :
  response (serve (answering "k" 200 (body_with_content "Hi")) ∅)
    = (Some 400, msg_missing_query)
  /\ sent (serve (answering "k" 200 (body_with_content "Hi")) ∅) = [].
Proof.
  apply (C2_missing_query_400 (answering "k" 200 (body_with_content "Hi")) ∅).
  left. reflexivity.
Defined.

(** ** C9: the status codes *)

(** C9.  Whatever the inbound request and whatever the outside world does,
    the handler writes a status, and it is 200, 400 or 500. *)
Theorem C9_status_codes (w : World) (query : gmap string (list string)) :
  exists code, fst (response (serve w query)) = Some code
               /\ (code = 200 \/ code = 400 \/ code = 500).
Proof.
  destruct (serve_cases w query) as [H|[[t H]|[t [H _]]]]; rewrite H; cbn; eauto.
Qed.

(** ** C3: the status of the upstream response *)

(** C3, the claim as stated fails: the status 201 is a 2xx status and the
    body decodes to a response with a choice, yet the handler takes the
    error path. *)
Lemma C3_counterexample :
  json.Unmarshal (body_with_content "Hi") json.zero = Some (one_choice "Hi")
  /\ relay (body_with_content "Hi") = (Some 200, "Hi")
  /\ response (serve (answering "k" 201 (body_with_content "Hi")) (q_is "Hello"))
     = (Some 500, msg_upstream_error).
Proof. vm_compute. auto. Qed.

(** C3, amended.  A response of the upstream server whose status is not 200
    (any other 2xx status included) is answered HTTP 500 with the text of an
    upstream error; exactly the status 200 goes on to the parse-and-extract
    path [relay]. *)
Theorem C3_status_200_parsed (w : World) (query : gmap string (list string))
    (code : Z) (body : string) :
  first_query query <> EmptyString ->
  NewRequest w = None ->
  upstream w (outbound w (wire (first_query query))) =
    http.DoOk {| http.StatusCode := code; http.ResponseBody := http.ReadOk body |} ->
  (code <> 200 -> response (serve w query) = (Some 500, msg_upstream_error))
  /\ (code = 200 -> response (serve w query) = relay body).
Proof.
  intros Hq Hn Hu. destruct (serve_answered w query code body Hq Hn Hu) as [H _].
  rewrite H. split; intros Hc.
  - apply Z.eqb_neq in Hc. rewrite Hc. reflexivity.
  - subst code. reflexivity.
Qed.

Lemma C3_witness :
  (404 <> 200 ->
   response (serve (answering "k" 404 "not found") (q_is "Hello"))
   = (Some 500, msg_upstream_error))
  /\ (404 = 200 ->
      response (serve (answering "k" 404 "not found") (q_is "Hello"))
      = relay "not found").
Proof.
  apply (C3_status_200_parsed (answering "k" 404 "not found") (q_is "Hello")
           404 "not found").
  - rewrite first_query_q_is. discriminate.
  - reflexivity.
  - reflexivity.
Defined.

(** ** C1: the first choice is relayed *)

(** C1, the claim as stated fails twice: with status 200 and a first choice
    whose content is empty the body is the fallback text, not the content;
    and with the 2xx status 201 the answer is HTTP 500. *)
Lemma C1_counterexample :
  (json.Unmarshal (body_with_content EmptyString) json.zero
     = Some (one_choice EmptyString)
   /\ response (serve (answering "k" 200 (body_with_content EmptyString))
                      (q_is "Hello"))
      = (Some 200, msg_no_answer)
   /\ msg_no_answer <> EmptyString)
  /\ (json.Unmarshal (body_with_content "Hi") json.zero = Some (one_choice "Hi")
      /\ response (serve (answering "k" 201 (body_with_content "Hi"))
                         (q_is "Hello"))
         = (Some 500, msg_upstream_error)).
Proof. vm_compute. repeat split; auto; discriminate. Qed.

(** C1, amended.  For a non-empty [q], when the upstream server answers with
    status 200 and a body that decodes to a response whose first choice has
    a non-empty message content, the handler answers HTTP 200 and the body
    is exactly that content. *)
Theorem C1_first_choice_relayed (w : World) (query : gmap string (list string))
    (body : string) (r : DeepSeekResponsePayload) (c : Choice)
    (rest : list Choice) :
  first_query query <> EmptyString ->
  NewRequest w = None ->
  upstream w (outbound w (wire (first_query query))) =
    http.DoOk {| http.StatusCode := 200; http.ResponseBody := http.ReadOk body |} ->
  json.Unmarshal body json.zero = Some r ->
  Choices r = c :: rest ->
  Content (ChoiceMessage c) <> EmptyString ->
  response (serve w query) = (Some 200, Content (ChoiceMessage c)).
Proof.
  intros Hq Hn Hu Hr Hc Hne.
  destruct (serve_answered w query 200 body Hq Hn Hu) as [H _].
  rewrite H. cbn. unfold relay. rewrite Hr, Hc.
  rewrite (eqb_empty_false _ Hne). reflexivity.
Qed.

Lemma C1_witness :
  response (serve (answering "k" 200 (body_with_content "Hi")) (q_is "Hello"))
  = (Some 200, "Hi").
Proof.
  apply (C1_first_choice_relayed (answering "k" 200 (body_with_content "Hi"))
           (q_is "Hello") (body_with_content "Hi") (one_choice "Hi")
           {| Index := 0;
              ChoiceMessage := {| Role := EmptyString; Content := "Hi" |};
              FinishReason := EmptyString |} []).
  - rewrite first_query_q_is. discriminate.
  - reflexivity.
  - reflexivity.
  - vm_compute. reflexivity.
  - reflexivity.
  - discriminate.
Defined.

(** ** C4: no usable choice *)

(** C4.  When the response of the upstream server is decoded (which the
    handler does at status 200) and has no choice, or a first choice with an
    empty message content, the handler answers HTTP 200 with the fixed
    fallback text. *)
Theorem C4_empty_answer_200 (w : World) (query : gmap string (list string))
    (body : string) (r : DeepSeekResponsePayload) :
  first_query query <> EmptyString ->
  NewRequest w = None ->
  upstream w (outbound w (wire (first_query query))) =
    http.DoOk {| http.StatusCode := 200; http.ResponseBody := http.ReadOk body |} ->
  json.Unmarshal body json.zero = Some r ->
  (Choices r = [] \/
   exists c rest, Choices r = c :: rest /\ Content (ChoiceMessage c) = EmptyString) ->
  response (serve w query) = (Some 200, msg_no_answer).
Proof.
  intros Hq Hn Hu Hr Hc.
  destruct (serve_answered w query 200 body Hq Hn Hu) as [H _].
  rewrite H. cbn. unfold relay. rewrite Hr.
  destruct Hc as [Hc|[c [rest [Hc He]]]]; rewrite Hc; [reflexivity|].
  rewrite He. reflexivity.
Qed.

Lemma C4_witness :
  response (serve (answering "k" 200 (body_with_content EmptyString))
                  (q_is "Hello"))
  = (Some 200, msg_no_answer).
Proof.
  apply (C4_empty_answer_200
           (answering "k" 200 (body_with_content EmptyString))
           (q_is "Hello") (body_with_content EmptyString)
           (one_choice EmptyString)).
  - rewrite first_query_q_is. discriminate.
  - reflexivity.
  - reflexivity.
  - vm_compute. reflexivity.
  - right. eexists _, _. split; reflexivity.
Defined.

(** ** C7: a body that does not decode *)

(** C7, the claim as stated fails: with the 2xx status 201 and a body that
    does not decode, the answer is the text of an upstream error, not that
    of a malformed response. *)
Lemma C7_counterexample :
  json.Unmarshal "oops" (json.zero : DeepSeekResponsePayload) = None
  /\ response (serve (answering "k" 201 "oops") (q_is "Hello"))
     = (Some 500, msg_upstream_error)
  /\ msg_upstream_error <> msg_invalid_format.
Proof. vm_compute. repeat split; auto; discriminate. Qed.

(** C7, amended.  When the upstream server answers with status 200 and a
    body that does not decode, the handler answers HTTP 500 with the text
    of a malformed response, and exactly one request was sent upstream (no
    retry).  Other 2xx statuses are not decoded. *)
Theorem C7_malformed_500 (w : World) (query : gmap string (list string))
    (body : string) :
  first_query query <> EmptyString ->
  NewRequest w = None ->
  upstream w (outbound w (wire (first_query query))) =
    http.DoOk {| http.StatusCode := 200; http.ResponseBody := http.ReadOk body |} ->
  json.Unmarshal body (json.zero : DeepSeekResponsePayload) = None ->
  response (serve w query) = (Some 500, msg_invalid_format)
  /\ length (sent (serve w query)) = 1%nat.
Proof.
  intros Hq Hn Hu Hr.
  destruct (serve_answered w query 200 body Hq Hn Hu) as [H Hs].
  rewrite H, Hs. cbn. unfold relay. rewrite Hr. auto.
Qed.

Lemma C7_witness :
  response (serve (answering "k" 200 "oops") (q_is "Hello"))
    = (Some 500, msg_invalid_format)
  /\ length (sent (serve (answering "k" 200 "oops") (q_is "Hello"))) = 1%nat.
Proof.
  apply (C7_malformed_500 (answering "k" 200 "oops") (q_is "Hello") "oops").
  - rewrite first_query_q_is. discriminate.
  - reflexivity.
  - reflexivity.
  - vm_compute. reflexivity.
Defined.

(** ** C8: what a failure shows to the caller *)

(** C8, the claim as stated fails.  The body of an HTTP 500 answer can
    contain the raw upstream body: when the upstream server answers 503
    with the very text of the handler's upstream-error message, the caller
    reads that body.  And the text depends on the upstream status: the same
    upstream body gives one text at status 404 and another at status 200. *)
Lemma C8_counterexample :
  (response (serve (answering "k" 503 msg_upstream_error) (q_is "Hello"))
     = (Some 500, msg_upstream_error)
   /\ contains
        (snd (response (serve (answering "k" 503 msg_upstream_error)
                              (q_is "Hello"))))
        msg_upstream_error)
  /\ (response (serve (answering "k" 404 "oops") (q_is "Hello"))
        = (Some 500, msg_upstream_error)
      /\ response (serve (answering "k" 200 "oops") (q_is "Hello"))
         = (Some 500, msg_invalid_format)
      /\ msg_upstream_error <> msg_invalid_format).
Proof.
  split; [split|].
  - vm_compute. reflexivity.
  - exists EmptyString, EmptyString. vm_compute. reflexivity.
  - vm_compute. repeat split; auto; discriminate.
Qed.

(** C8, amended.  For a non-empty query, every failure is answered HTTP 500
    with a fixed text that is chosen by the kind of failure alone (request
    creation, transport, reading the body, an upstream status other than
    200, a body that does not decode at status 200; marshalling never
    fails): within one kind the answer is the same whatever the error, the
    upstream status code and the upstream body are.  In particular two
    upstream responses with statuses other than 200 give the caller the
    same response, whatever their codes and bodies.  Every HTTP 500 body is
    one of the four fixed texts. *)
Theorem C8_failure_text_by_kind (w : World)
    (query : gmap string (list string)) :
  first_query query <> EmptyString ->
  json.Marshal (payload (first_query query)) <> None
  /\ (forall err, NewRequest w = Some err ->
        response (serve w query) = (Some 500, msg_internal))
  /\ (forall err, NewRequest w = None ->
        upstream w (outbound w (wire (first_query query))) = http.DoErr err ->
        response (serve w query) = (Some 500, msg_unreachable))
  /\ (forall code err, NewRequest w = None ->
        upstream w (outbound w (wire (first_query query))) =
          http.DoOk {| http.StatusCode := code;
                       http.ResponseBody := http.ReadErr err |} ->
        response (serve w query) = (Some 500, msg_internal))
  /\ (forall code body, NewRequest w = None ->
        upstream w (outbound w (wire (first_query query))) =
          http.DoOk {| http.StatusCode := code;
                       http.ResponseBody := http.ReadOk body |} ->
        code <> 200 ->
        response (serve w query) = (Some 500, msg_upstream_error))
  /\ (forall body, NewRequest w = None ->
        upstream w (outbound w (wire (first_query query))) =
          http.DoOk {| http.StatusCode := 200;
                       http.ResponseBody := http.ReadOk body |} ->
        json.Unmarshal body (json.zero : DeepSeekResponsePayload) = None ->
        response (serve w query) = (Some 500, msg_invalid_format))
  /\ (forall w2 code1 code2 body1 body2,
        NewRequest w = None -> NewRequest w2 = None ->
        upstream w (outbound w (wire (first_query query))) =
          http.DoOk {| http.StatusCode := code1;
                       http.ResponseBody := http.ReadOk body1 |} ->
        upstream w2 (outbound w2 (wire (first_query query))) =
          http.DoOk {| http.StatusCode := code2;
                       http.ResponseBody := http.ReadOk body2 |} ->
        code1 <> 200 -> code2 <> 200 ->
        response (serve w query) = response (serve w2 query))
  /\ (forall text, response (serve w query) = (Some 500, text) ->
        In text failure_texts).
Proof.
  intros Hq.
  assert (Hstatus : forall w' code body, NewRequest w' = None ->
            upstream w' (outbound w' (wire (first_query query))) =
              http.DoOk {| http.StatusCode := code;
                           http.ResponseBody := http.ReadOk body |} ->
            code <> 200 ->
            response (serve w' query) = (Some 500, msg_upstream_error)).
  { intros w' code body Hn Hu Hc.
    destruct (serve_answered w' query code body Hq Hn Hu) as [H _].
    rewrite H. apply Z.eqb_neq in Hc. rewrite Hc. reflexivity. }
  split; [rewrite Marshal_payload; discriminate|].
  split.
  { intros err Hn. unfold first_query in *. run_handler.
    rewrite (eqb_empty_false _ Hq). rewrite Marshal_payload, Hn.
    hsimpl. reflexivity. }
  split.
  { intros err Hn Hu. unfold first_query in *. run_handler.
    rewrite (eqb_empty_false _ Hq). rewrite Marshal_payload, Hn.
    hsimpl. rewrite Hu. hsimpl. reflexivity. }
  split.
  { intros code err Hn Hu. unfold first_query in *. run_handler.
    rewrite (eqb_empty_false _ Hq). rewrite Marshal_payload, Hn.
    hsimpl. rewrite Hu. hsimpl. reflexivity. }
  split; [intros code body; apply Hstatus|].
  split.
  { intros body Hn Hu Hb.
    destruct (serve_answered w query 200 body Hq Hn Hu) as [H _].
    rewrite H. change (200 =? 200) with true. cbv iota.
    unfold relay. rewrite Hb. reflexivity. }
  split.
  { intros w2 code1 code2 body1 body2 Hn1 Hn2 Hu1 Hu2 Hc1 Hc2.
    rewrite (Hstatus w code1 body1 Hn1 Hu1 Hc1).
    rewrite (Hstatus w2 code2 body2 Hn2 Hu2 Hc2). reflexivity. }
  intros text Ht.
  destruct (serve_cases w query) as [H|[[t H]|[t [H Hin]]]];
    rewrite H in Ht; inversion Ht; subst; exact Hin.
Qed.

Lemma C8_witness :
  json.Marshal (payload (first_query (q_is "Hello"))) <> None
  /\ (forall err, NewRequest (answering "k" 404 "secret") = Some err ->
        response (serve (answering "k" 404 "secret") (q_is "Hello"))
        = (Some 500, msg_internal))
  /\ (forall err, NewRequest (answering "k" 404 "secret") = None ->
        upstream (answering "k" 404 "secret")
          (outbound (answering "k" 404 "secret")
             (wire (first_query (q_is "Hello")))) = http.DoErr err ->
        response (serve (answering "k" 404 "secret") (q_is "Hello"))
        = (Some 500, msg_unreachable))
  /\ (forall code err, NewRequest (answering "k" 404 "secret") = None ->
        upstream (answering "k" 404 "secret")
          (outbound (answering "k" 404 "secret")
             (wire (first_query (q_is "Hello")))) =
          http.DoOk {| http.StatusCode := code;
                       http.ResponseBody := http.ReadErr err |} ->
        response (serve (answering "k" 404 "secret") (q_is "Hello"))
        = (Some 500, msg_internal))
  /\ (forall code body, NewRequest (answering "k" 404 "secret") = None ->
        upstream (answering "k" 404 "secret")
          (outbound (answering "k" 404 "secret")
             (wire (first_query (q_is "Hello")))) =
          http.DoOk {| http.StatusCode := code;
                       http.ResponseBody := http.ReadOk body |} ->
        code <> 200 ->
        response (serve (answering "k" 404 "secret") (q_is "Hello"))
        = (Some 500, msg_upstream_error))
  /\ (forall body, NewRequest (answering "k" 404 "secret") = None ->
        upstream (answering "k" 404 "secret")
          (outbound (answering "k" 404 "secret")
             (wire (first_query (q_is "Hello")))) =
          http.DoOk {| http.StatusCode := 200;
                       http.ResponseBody := http.ReadOk body |} ->
        json.Unmarshal body (json.zero : DeepSeekResponsePayload) = None ->
        response (serve (answering "k" 404 "secret") (q_is "Hello"))
        = (Some 500, msg_invalid_format))
  /\ (forall w2 code1 code2 body1 body2,
        NewRequest (answering "k" 404 "secret") = None ->
        NewRequest w2 = None ->
        upstream (answering "k" 404 "secret")
          (outbound (answering "k" 404 "secret")
             (wire (first_query (q_is "Hello")))) =
          http.DoOk {| http.StatusCode := code1;
                       http.ResponseBody := http.ReadOk body1 |} ->
        upstream w2 (outbound w2 (wire (first_query (q_is "Hello")))) =
          http.DoOk {| http.StatusCode := code2;
                       http.ResponseBody := http.ReadOk body2 |} ->
        code1 <> 200 -> code2 <> 200 ->
        response (serve (answering "k" 404 "secret") (q_is "Hello"))
        = response (serve w2 (q_is "Hello")))
  /\ (forall text,
        response (serve (answering "k" 404 "secret") (q_is "Hello"))
        = (Some 500, text) -> In text failure_texts).
Proof.
  apply (C8_failure_text_by_kind (answering "k" 404 "secret") (q_is "Hello")).
  rewrite first_query_q_is. discriminate.
Defined.

(** ** C5: the payload *)

(** C5.  For a non-empty query the payload has exactly one message, with
    role [user] and the query as content, the fixed model, [stream = false],
    [max_tokens = 1024] and the float64 of [0.7] as temperature; it is what
    the handler marshals and sends, in one request. *)
Theorem C5_payload_fields (w : World) (query : gmap string (list string)) :
  first_query query <> EmptyString ->
  NewRequest w = None ->
  let p := payload (first_query query) in
  Messages p = [ {| Role := "user"; Content := first_query query |} ]
  /\ Model p = "deepseek-ai/DeepSeek-R1"
  /\ Stream p = false
  /\ MaxTokens p = 1024
  /\ strconv.ParseFloat "0.7" = Some (Temperature p)
  /\ exists jsonPayload,
       json.Marshal p = Some jsonPayload
       /\ sent (serve w query) = [outbound w jsonPayload].
Proof.
  intros Hq Hn p. repeat split.
  exists (wire (first_query query)). split.
  - apply Marshal_payload.
  - apply serve_sent; assumption.
Qed.

Lemma C5_witness :
  let p := payload (first_query (q_is "Hello")) in
  Messages p = [ {| Role := "user"; Content := first_query (q_is "Hello") |} ]
  /\ Model p = "deepseek-ai/DeepSeek-R1"
  /\ Stream p = false
  /\ MaxTokens p = 1024
  /\ strconv.ParseFloat "0.7" = Some (Temperature p)
  /\ exists jsonPayload,
       json.Marshal p = Some jsonPayload
       /\ sent (serve (answering "k" 200 "{}") (q_is "Hello"))
          = [outbound (answering "k" 200 "{}") jsonPayload].
Proof.
  apply (C5_payload_fields (answering "k" 200 "{}") (q_is "Hello")).
  - rewrite first_query_q_is. discriminate.
  - reflexivity.
Defined.

(** ** The JSON codec on the payload *)

Module Codec.
Import utf8 json.

Lemma u8_range (c : ascii) : 0 <= u8 c < 256.
Proof.
  unfold u8. pose proof (N_ascii_bounded c) as H. lia.
Qed.

Lemma byte_u8 (c : ascii) : byte (u8 c) = c.
Proof.
  unfold byte. pose proof (u8_range c) as H.
  change 0xFF with (Z.ones 8). rewrite Z.land_ones by lia.
  rewrite Z.mod_small by (change (2 ^ 8) with 256; lia).
  unfold u8. rewrite N2Z.id. apply ascii_N_embedding.
Qed.

Lemma lor_add (m lo n : Z) :
  0 <= n -> 0 <= lo < 2 ^ n -> Z.lor (m * 2 ^ n) lo = m * 2 ^ n + lo.
Proof.
  intros Hn Hlo.
  assert (Hland : Z.land (m * 2 ^ n) lo = 0).
  { apply Z.bits_inj'. intros k Hk. rewrite Z.land_spec, Z.bits_0.
    destruct (Z.ltb_spec k n) as [Hlt|Hge].
    - rewrite Z.mul_pow2_bits_low by lia. reflexivity.
    - rewrite andb_comm.
      destruct (Z.eq_dec lo 0) as [->|Hne]; [rewrite Z.bits_0; reflexivity|].
      rewrite Z.bits_above_log2; [reflexivity|lia|].
      apply Z.log2_lt_pow2; [lia|].
      apply Z.lt_le_trans with (2 ^ n); [lia|].
      apply Z.pow_le_mono_r; lia. }
  rewrite <- Z.lxor_lor by exact Hland.
  symmetry. apply Z.add_nocarry_lxor. exact Hland.
Qed.

Lemma first_spec (b : Z) :
  0 <= b < 256 ->
  match first b with
  | fi_as => b < 0x80
  | fi_xx => 0x80 <= b
  | fi_lead sz lo hi => lead_ok b sz lo hi
  end.
Proof.
  intros Hb. unfold first, lead_ok, locb, hicb.
  repeat match goal with
  | |- context [?x <? ?y] => destruct (Z.ltb_spec x y)
  | |- context [?x =? ?y] => destruct (Z.eqb_spec x y)
  end; try lia.
  all: try (left; repeat split; lia).
  all: try (right; left; repeat split; lia).
  all: try (right; right; repeat split; lia).
Qed.

Ltac to_arith :=
  unfold mask2, mask3, mask4, maskx, t2, t3, t4, tx in *;
  change 0x3F with (Z.ones 6) in *; change 0x1F with (Z.ones 5) in *;
  change 0x0F with (Z.ones 4) in *; change 0x07 with (Z.ones 3) in *;
  change 0xFF with (Z.ones 8) in *;
  rewrite ?Z.land_ones, ?Z.shiftl_mul_pow2, ?Z.shiftr_div_pow2 in * by lia.

Lemma cont_bits (b : Z) : 0x80 <= b <= 0xBF -> Z.land b maskx = b - 0x80.
Proof. intros H. to_arith. change (2 ^ 6) with 64. Z.div_mod_to_equations. lia. Qed.

Lemma put_cont (x : Z) : 0 <= x < 64 -> Z.lor tx x = 0x80 + x.
Proof.
  intros H. unfold tx. change 0x80 with (2 * 2 ^ 6).
  rewrite lor_add; [reflexivity|lia|change (2 ^ 6) with 64; lia].
Qed.

(** The rune fields of a valid sequence are put back by [EncodeRune]. *)
Lemma byte_cont (b : ascii) (x : Z) :
  0x80 <= u8 b <= 0xBF -> x mod 64 = u8 b - 0x80 ->
  byte (Z.lor tx (Z.land (Z.land x 0xFF) maskx)) = b.
Proof.
  intros Hb Hx. transitivity (byte (u8 b)); [f_equal|apply byte_u8].
  assert (Z.land (Z.land x 0xFF) maskx = u8 b - 0x80) as ->.
  { to_arith. change (2 ^ 8) with 256. change (2 ^ 6) with 64 in *.
    Z.div_mod_to_equations. lia. }
  rewrite put_cont by lia. lia.
Qed.

Lemma rune2_value b0 b1 :
  0xC2 <= u8 b0 <= 0xDF -> 0x80 <= u8 b1 <= 0xBF ->
  rune2 b0 b1 = (u8 b0 - 0xC0) * 64 + (u8 b1 - 0x80).
Proof.
  intros H0 H1. unfold rune2. rewrite (cont_bits (u8 b1)) by lia.
  assert (Z.land (u8 b0) mask2 = u8 b0 - 0xC0) as ->.
  { to_arith. change (2 ^ 5) with 32. Z.div_mod_to_equations. lia. }
  rewrite Z.shiftl_mul_pow2 by lia.
  rewrite lor_add; [reflexivity|lia|change (2 ^ 6) with 64; lia].
Qed.

Ltac pow_consts :=
  change (2 ^ 6) with 64 in *; change (2 ^ 12) with 4096 in *;
  change (2 ^ 18) with 262144 in *.

Lemma rune3_value b0 b1 b2 :
  0xE0 <= u8 b0 <= 0xEF -> 0x80 <= u8 b1 <= 0xBF -> 0x80 <= u8 b2 <= 0xBF ->
  rune3 b0 b1 b2 = (u8 b0 - 0xE0) * 4096 + (u8 b1 - 0x80) * 64 + (u8 b2 - 0x80).
Proof.
  intros H0 H1 H2. unfold rune3.
  rewrite (cont_bits (u8 b1)), (cont_bits (u8 b2)) by lia.
  assert (Z.land (u8 b0) mask3 = u8 b0 - 0xE0) as ->.
  { to_arith. change (2 ^ 4) with 16. Z.div_mod_to_equations. lia. }
  rewrite !Z.shiftl_mul_pow2 by lia.
  rewrite (lor_add (u8 b0 - 0xE0) _ 12) by (pow_consts; lia).
  replace ((u8 b0 - 0xE0) * 2 ^ 12 + (u8 b1 - 0x80) * 2 ^ 6)
    with (((u8 b0 - 0xE0) * 64 + (u8 b1 - 0x80)) * 2 ^ 6) by (pow_consts; lia).
  rewrite lor_add by (pow_consts; lia).
  pow_consts. lia.
Qed.

Lemma rune4_value b0 b1 b2 b3 :
  0xF0 <= u8 b0 <= 0xF4 -> 0x80 <= u8 b1 <= 0xBF -> 0x80 <= u8 b2 <= 0xBF ->
  0x80 <= u8 b3 <= 0xBF ->
  rune4 b0 b1 b2 b3 =
    (u8 b0 - 0xF0) * 262144 + (u8 b1 - 0x80) * 4096 + (u8 b2 - 0x80) * 64
    + (u8 b3 - 0x80).
Proof.
  intros H0 H1 H2 H3. unfold rune4.
  rewrite (cont_bits (u8 b1)), (cont_bits (u8 b2)), (cont_bits (u8 b3)) by lia.
  assert (Z.land (u8 b0) mask4 = u8 b0 - 0xF0) as ->.
  { to_arith. change (2 ^ 3) with 8. Z.div_mod_to_equations. lia. }
  rewrite !Z.shiftl_mul_pow2 by lia.
  rewrite (lor_add (u8 b0 - 0xF0) _ 18) by (pow_consts; lia).
  replace ((u8 b0 - 0xF0) * 2 ^ 18 + (u8 b1 - 0x80) * 2 ^ 12)
    with (((u8 b0 - 0xF0) * 64 + (u8 b1 - 0x80)) * 2 ^ 12) by (pow_consts; lia).
  rewrite (lor_add _ _ 12) by (pow_consts; lia).
  replace (((u8 b0 - 0xF0) * 64 + (u8 b1 - 0x80)) * 2 ^ 12 + (u8 b2 - 0x80) * 2 ^ 6)
    with ((((u8 b0 - 0xF0) * 64 + (u8 b1 - 0x80)) * 64 + (u8 b2 - 0x80)) * 2 ^ 6)
    by (pow_consts; lia).
  rewrite lor_add by (pow_consts; lia).
  pow_consts. lia.
Qed.

Lemma byte_lead (b : ascii) (x m n : Z) :
  0 <= n -> 0 <= x mod 256 < 2 ^ n -> u8 b = m * 2 ^ n + x mod 256 ->
  byte (Z.lor (m * 2 ^ n) (Z.land x 0xFF)) = b.
Proof.
  intros Hn Hx Hb. transitivity (byte (u8 b)); [f_equal|apply byte_u8].
  change 0xFF with (Z.ones 8). rewrite Z.land_ones by lia.
  change (2 ^ 8) with 256. rewrite lor_add by lia. lia.
Qed.

Lemma encode_rune2 b0 b1 :
  0xC2 <= u8 b0 <= 0xDF -> 0x80 <= u8 b1 <= 0xBF ->
  EncodeRune (rune2 b0 b1) = String b0 (String b1 EmptyString).
Proof.
  intros H0 H1. rewrite rune2_value by assumption.
  set (c := (u8 b0 - 0xC0) * 64 + (u8 b1 - 0x80)).
  assert (Hc : 0x80 <= c <= 0x7FF) by (unfold c; lia).
  unfold EncodeRune, rune1Max, rune2Max.
  destruct (Z.leb_spec 0 c); [|lia].
  destruct (Z.leb_spec c 0x7F); [lia|].
  destruct (Z.leb_spec c 0x7FF); [|lia]. cbn [andb].
  f_equal; [|f_equal].
  - unfold t2. change 0xC0 with (3 * 2 ^ 6). apply byte_lead; [lia| |];
      rewrite Z.shiftr_div_pow2 by lia; pow_consts; unfold c;
      Z.div_mod_to_equations; lia.
  - apply byte_cont; [lia|]. unfold c. Z.div_mod_to_equations. lia.
Qed.

Lemma encode_rune3 b0 b1 b2 :
  0xE0 <= u8 b0 <= 0xEF -> 0x80 <= u8 b1 <= 0xBF -> 0x80 <= u8 b2 <= 0xBF ->
  (u8 b0 = 0xE0 -> 0xA0 <= u8 b1) -> (u8 b0 = 0xED -> u8 b1 <= 0x9F) ->
  EncodeRune (rune3 b0 b1 b2)
  = String b0 (String b1 (String b2 EmptyString)).
Proof.
  intros H0 H1 H2 Hlo Hhi. rewrite rune3_value by assumption.
  set (c := (u8 b0 - 0xE0) * 4096 + (u8 b1 - 0x80) * 64 + (u8 b2 - 0x80)).
  assert (Hc : 0x800 <= c <= 0xFFFF /\ (c < 0xD800 \/ 0xDFFF < c))
    by (unfold c; lia).
  unfold EncodeRune, rune1Max, rune2Max, rune3Max, MaxRune, surrogateMin,
    surrogateMax.
  destruct (Z.leb_spec 0 c); [|lia].
  destruct (Z.leb_spec c 0x7F); [lia|].
  destruct (Z.leb_spec c 0x7FF); [lia|]. cbn [andb].
  destruct (Z.ltb_spec c 0); [lia|].
  destruct (Z.ltb_spec 0x10FFFF c); [lia|]. cbn [orb].
  assert ((0xD800 <=? c) && (c <=? 0xDFFF) = false) as ->.
  { destruct (Z.leb_spec 0xD800 c); destruct (Z.leb_spec c 0xDFFF);
      cbn [andb]; try reflexivity; lia. }
  destruct (Z.leb_spec c 0xFFFF); [|lia].
  f_equal; [|f_equal; [|f_equal]].
  - unfold t3. change 0xE0 with (14 * 2 ^ 4). apply byte_lead; [lia| |];
      rewrite Z.shiftr_div_pow2 by lia; pow_consts; change (2 ^ 4) with 16;
      unfold c; Z.div_mod_to_equations; lia.
  - apply byte_cont; [lia|]. rewrite Z.shiftr_div_pow2 by lia. pow_consts.
    unfold c. Z.div_mod_to_equations. lia.
  - apply byte_cont; [lia|]. unfold c. Z.div_mod_to_equations. lia.
Qed.

Lemma encode_rune4 b0 b1 b2 b3 :
  0xF0 <= u8 b0 <= 0xF4 -> 0x80 <= u8 b1 <= 0xBF -> 0x80 <= u8 b2 <= 0xBF ->
  0x80 <= u8 b3 <= 0xBF ->
  (u8 b0 = 0xF0 -> 0x90 <= u8 b1) -> (u8 b0 = 0xF4 -> u8 b1 <= 0x8F) ->
  EncodeRune (rune4 b0 b1 b2 b3)
  = String b0 (String b1 (String b2 (String b3 EmptyString))).
Proof.
  intros H0 H1 H2 H3 Hlo Hhi. rewrite rune4_value by assumption.
  set (c := (u8 b0 - 0xF0) * 262144 + (u8 b1 - 0x80) * 4096
            + (u8 b2 - 0x80) * 64 + (u8 b3 - 0x80)).
  assert (Hc : 0x10000 <= c <= 0x10FFFF) by (unfold c; lia).
  unfold EncodeRune, rune1Max, rune2Max, rune3Max, MaxRune, surrogateMin,
    surrogateMax.
  destruct (Z.leb_spec 0 c); [|lia].
  destruct (Z.leb_spec c 0x7F); [lia|].
  destruct (Z.leb_spec c 0x7FF); [lia|]. cbn [andb].
  destruct (Z.ltb_spec c 0); [lia|].
  destruct (Z.ltb_spec 0x10FFFF c); [lia|]. cbn [orb].
  assert ((0xD800 <=? c) && (c <=? 0xDFFF) = false) as ->.
  { destruct (Z.leb_spec 0xD800 c); destruct (Z.leb_spec c 0xDFFF);
      cbn [andb]; try reflexivity; lia. }
  destruct (Z.leb_spec c 0xFFFF); [lia|].
  f_equal; [|f_equal; [|f_equal; [|f_equal]]].
  - unfold t4. change 0xF0 with (30 * 2 ^ 3). apply byte_lead; [lia| |];
      rewrite Z.shiftr_div_pow2 by lia; pow_consts; change (2 ^ 3) with 8;
      unfold c; Z.div_mod_to_equations; lia.
  - apply byte_cont; [lia|]. rewrite Z.shiftr_div_pow2 by lia. pow_consts.
    unfold c. Z.div_mod_to_equations. lia.
  - apply byte_cont; [lia|]. rewrite Z.shiftr_div_pow2 by lia. pow_consts.
    unfold c. Z.div_mod_to_equations. lia.
  - apply byte_cont; [lia|]. unfold c. Z.div_mod_to_equations. lia.
Qed.

Lemma or_false_range (x lo hi : Z) :
  (x <? lo) || (hi <? x) = false -> lo <= x <= hi.
Proof.
  destruct (Z.ltb_spec x lo); destruct (Z.ltb_spec hi x); cbn; intros; try discriminate; lia.
Qed.

Lemma decode_cases (s : string) :
  let '(c, size) := DecodeRuneInString s in
  (s = EmptyString /\ size = 0%nat)
  \/ (exists b r, s = String b r /\ u8 b < 0x80 /\ c = u8 b /\ size = 1%nat)
  \/ (exists b r, s = String b r /\ 0x80 <= u8 b /\ c = RuneError /\ size = 1%nat)
  \/ (exists chunk r, s = chunk +:+ r /\ valid_chunk chunk c size).
Proof.
  destruct s as [|b0 r0]; [left; auto|].
  unfold DecodeRuneInString.
  pose proof (first_spec (u8 b0) (u8_range b0)) as Hf.
  destruct (first (u8 b0)) as [| |sz lo hi] eqn:Ef.
  { right; left. eauto 6. }
  { right; right; left. eauto 6. }
  assert (Hb0 : 0x80 <= u8 b0) by (unfold lead_ok in Hf; lia).
  destruct r0 as [|b1 r1]; [right; right; left; eauto 6|].
  destruct ((u8 b1 <? lo) || (hi <? u8 b1)) eqn:E1;
    [right; right; left; eauto 6|].
  pose proof (or_false_range _ _ _ E1) as R1.
  destruct Hf as [(-> & H0 & -> & ->)|[(-> & H0 & Hlo & Hhi)|(-> & H0 & Hlo & Hhi)]].
  - (* two bytes *)
    cbn [Nat.leb]. right; right; right.
    exists (String b0 (String b1 EmptyString)), r1. split; [reflexivity|].
    repeat split; auto; try lia.
    + apply encode_rune2; lia.
    + intros t. cbn [String.append]. unfold DecodeRuneInString.
      rewrite Ef, E1. reflexivity.
  - (* three bytes *)
    cbn [Nat.leb].
    destruct r1 as [|b2 r2]; [right; right; left; eauto 6|].
    destruct ((u8 b2 <? locb) || (hicb <? u8 b2)) eqn:E2;
      [right; right; left; eauto 6|].
    pose proof (or_false_range _ _ _ E2) as R2. unfold locb, hicb in R2.
    right; right; right.
    exists (String b0 (String b1 (String b2 EmptyString))), r2.
    split; [reflexivity|].
    assert (R1' : 0x80 <= u8 b1 <= 0xBF
                  /\ (u8 b0 = 0xE0 -> 0xA0 <= u8 b1)
                  /\ (u8 b0 = 0xED -> u8 b1 <= 0x9F)).
    { subst lo hi. destruct (Z.eqb_spec (u8 b0) 0xE0);
        destruct (Z.eqb_spec (u8 b0) 0xED); lia. }
    repeat split; auto; try lia.
    + apply encode_rune3; lia.
    + intros t. cbn [String.append]. unfold DecodeRuneInString.
      rewrite Ef, E1, E2. reflexivity.
  - (* four bytes *)
    cbn [Nat.leb].
    destruct r1 as [|b2 r2]; [right; right; left; eauto 6|].
    destruct ((u8 b2 <? locb) || (hicb <? u8 b2)) eqn:E2;
      [right; right; left; eauto 6|].
    pose proof (or_false_range _ _ _ E2) as R2. unfold locb, hicb in R2.
    destruct r2 as [|b3 r3]; [right; right; left; eauto 6|].
    destruct ((u8 b3 <? locb) || (hicb <? u8 b3)) eqn:E3;
      [right; right; left; eauto 6|].
    pose proof (or_false_range _ _ _ E3) as R3. unfold locb, hicb in R3.
    right; right; right.
    exists (String b0 (String b1 (String b2 (String b3 EmptyString)))), r3.
    split; [reflexivity|].
    assert (R1' : 0x80 <= u8 b1 <= 0xBF
                  /\ (u8 b0 = 0xF0 -> 0x90 <= u8 b1)
                  /\ (u8 b0 = 0xF4 -> u8 b1 <= 0x8F)).
    { subst lo hi. destruct (Z.eqb_spec (u8 b0) 0xF0);
        destruct (Z.eqb_spec (u8 b0) 0xF4); lia. }
    repeat split; auto; try lia.
    + apply encode_rune4; lia.
    + intros t. cbn [String.append]. unfold DecodeRuneInString.
      rewrite Ef, E1, E2, E3. reflexivity.
Qed.

Lemma high_not_char (c d : ascii) :
  0x80 <= u8 c -> u8 d < 0x80 -> Ascii.eqb c d = false.
Proof.
  intros Hc Hd. destruct (Ascii.eqb_spec c d) as [->|]; [lia|reflexivity].
Qed.

Lemma ltb_false (x y : Z) : y <= x -> (x <? y) = false.
Proof. intros H. apply Z.ltb_ge. exact H. Qed.

(** One step of the three loops on a valid sequence. *)
Lemma chunk_shape chunk c size :
  valid_chunk chunk c size ->
  match size with
  | 2%nat => exists b0 b1, chunk = String b0 (String b1 EmptyString)
  | 3%nat => exists b0 b1 b2, chunk = String b0 (String b1 (String b2 EmptyString))
  | 4%nat => exists b0 b1 b2 b3,
      chunk = String b0 (String b1 (String b2 (String b3 EmptyString)))
  | _ => False
  end.
Proof.
  intros [Hs [Hl _]].
  destruct Hs as [-> | [-> | ->]];
    repeat (destruct chunk as [|? chunk]; try discriminate Hl); eauto.
Qed.

Lemma ValidString_chunk chunk c size r :
  valid_chunk chunk c size -> ValidString (chunk +:+ r) = ValidString r.
Proof.
  intros Hv. pose proof (chunk_shape _ _ _ Hv) as Hsh.
  destruct Hv as (Hs & Hl & Hh & He & Hd). specialize (Hd r).
  destruct Hs as [-> | [-> | ->]].
  - destruct Hsh as (b0 & b1 & ->). cbn [String.append] in *.
    cbn [ValidString]. rewrite Hd. rewrite andb_false_r. reflexivity.
  - destruct Hsh as (b0 & b1 & b2 & ->). cbn [String.append] in *.
    cbn [ValidString]. rewrite Hd. rewrite andb_false_r. reflexivity.
  - destruct Hsh as (b0 & b1 & b2 & b3 & ->). cbn [String.append] in *.
    cbn [ValidString]. rewrite Hd. rewrite andb_false_r. reflexivity.
Qed.

Lemma take_chunk (chunk r : string) :
  take_string (String.length chunk) (chunk +:+ r) = chunk.
Proof. induction chunk as [|x chunk IH]; cbn; [destruct r|rewrite IH]; reflexivity. Qed.

Lemma appendStringLoop_chunk chunk c size r :
  valid_chunk chunk c size ->
  appendStringLoop (chunk +:+ r) = escaped chunk c +:+ appendStringLoop r.
Proof.
  intros Hv. pose proof (chunk_shape _ _ _ Hv) as Hsh.
  destruct Hv as (Hs & Hl & Hh & He & Hd). specialize (Hd r).
  pose proof (take_chunk chunk r) as Ht. rewrite Hl in Ht.
  unfold escaped.
  destruct Hs as [-> | [-> | ->]].
  - destruct Hsh as (b0 & b1 & ->). cbn [String.append high] in *.
    cbn [appendStringLoop]. rewrite Hd, Ht.
    rewrite (ltb_false (u8 b0)) by (unfold RuneSelf; lia).
    rewrite andb_false_r. reflexivity.
  - destruct Hsh as (b0 & b1 & b2 & ->). cbn [String.append high] in *.
    cbn [appendStringLoop]. rewrite Hd, Ht.
    rewrite (ltb_false (u8 b0)) by (unfold RuneSelf; lia).
    rewrite andb_false_r. reflexivity.
  - destruct Hsh as (b0 & b1 & b2 & b3 & ->). cbn [String.append high] in *.
    cbn [appendStringLoop]. rewrite Hd, Ht.
    rewrite (ltb_false (u8 b0)) by (unfold RuneSelf; lia).
    rewrite andb_false_r. reflexivity.
Qed.

Lemma length_append (a b : string) :
  String.length (a +:+ b) = (String.length a + String.length b)%nat.
Proof. induction a as [|x a IH]; cbn; [reflexivity|now rewrite IH]. Qed.

(** Induction over a string, one rune at a time. *)
Lemma utf8_ind (P : string -> Prop) :
  P EmptyString ->
  (forall b r, u8 b < 0x80 -> P r -> P (String b r)) ->
  (forall b r, 0x80 <= u8 b ->
     DecodeRuneInString (String b r) = (RuneError, 1%nat) ->
     P r -> P (String b r)) ->
  (forall chunk c size r, valid_chunk chunk c size -> P r -> P (chunk +:+ r)) ->
  forall s, P s.
Proof.
  intros Hnil Hascii Hbad Hchunk s.
  remember (String.length s) as n eqn:Hn.
  assert (Hle : (String.length s <= n)%nat) by lia. clear Hn.
  revert s Hle. induction n as [|n IH]; intros s Hle.
  - destruct s; [exact Hnil|cbn in Hle; lia].
  - pose proof (decode_cases s) as Hc.
    destruct (DecodeRuneInString s) as [c size] eqn:E.
    destruct Hc as [[-> _]|[(b & r & -> & Hb & _)|[(b & r & -> & Hb & -> & ->)
                   |(chunk & r & -> & Hv)]]].
    + exact Hnil.
    + apply Hascii; [exact Hb|]. apply IH. cbn in Hle. lia.
    + apply Hbad; [exact Hb|exact E|]. apply IH. cbn in Hle. lia.
    + apply (Hchunk chunk c size r Hv). apply IH.
      rewrite length_append in Hle.
      destruct Hv as (Hs & Hl & _). lia.
Qed.

Lemma stepStr_strstep stk ss raw c ss' :
  strstep ss c = Some ss' ->
  stepStr stk ss raw c = Some (SStr stk ss' (snoc raw c)).
Proof.
  unfold strstep, stepStr. destruct ss as [| |n].
  - destruct (Ascii.eqb c dquote); [discriminate|].
    destruct (Ascii.eqb c "\"); [intros [= <-]; reflexivity|].
    destruct (u8 c <? 0x20); [discriminate|]. intros [= <-]. reflexivity.
  - destruct (_ || _); [intros [= <-]; reflexivity|].
    destruct (Ascii.eqb c "u"); [intros [= <-]; reflexivity|discriminate].
  - destruct (isHex c); [|discriminate].
    destruct n as [|[|n]]; intros [= <-]; reflexivity.
Qed.

Lemma run_strrun s : forall stk ss raw ss',
  strrun ss s = Some ss' ->
  run (SStr stk ss raw) s = Some (SStr stk ss' (raw +:+ s)).
Proof.
  induction s as [|c t IH]; intros stk ss raw ss' H; cbn [strrun] in H.
  - injection H as <-. cbn [run]. f_equal. f_equal.
    induction raw as [|x raw IHr]; cbn; [reflexivity|now rewrite <- IHr].
  - destruct (strstep ss c) as [ss1|] eqn:E; [|discriminate].
    cbn [run step]. rewrite (stepStr_strstep stk ss raw c ss1 E).
    rewrite (IH stk ss1 (snoc raw c) ss' H). unfold snoc.
    rewrite append_assoc. reflexivity.
Qed.

Lemma strrun_app a : forall ss b,
  strrun ss (a +:+ b) =
  match strrun ss a with Some ss' => strrun ss' b | None => None end.
Proof.
  induction a as [|c a IH]; intros ss b; cbn [String.append strrun];
    [reflexivity|].
  destruct (strstep ss c); [apply IH|reflexivity].
Qed.

Lemma strrun_high chunk : high chunk -> strrun InString chunk = Some InString.
Proof.
  induction chunk as [|c t IH]; cbn [high strrun]; [reflexivity|].
  intros [Hc Ht]. unfold strstep, stepStr.
  rewrite (high_not_char c dquote) by (first [exact Hc | reflexivity]).
  rewrite (high_not_char c "\") by (first [exact Hc | reflexivity]).
  rewrite ltb_false by lia. apply IH. exact Ht.
Qed.

Lemma strrun_ascii (b : ascii) :
  (u8 b <? 0x80) = true ->
  strrun InString (if htmlSafeSet b then String b EmptyString else escapeByte b)
  = Some InString.
Proof.
  destruct b as [[] [] [] [] [] [] [] []]; intros H;
    first [discriminate H | vm_compute; reflexivity].
Qed.

Lemma appendStringLoop_ascii b r :
  u8 b < 0x80 ->
  appendStringLoop (String b r) =
  (if htmlSafeSet b then String b EmptyString else escapeByte b)
    +:+ appendStringLoop r.
Proof.
  intros H. cbn [appendStringLoop].
  destruct (Z.ltb_spec (u8 b) RuneSelf) as [_|H']; [reflexivity|].
  unfold RuneSelf in H'. lia.
Qed.

Lemma appendStringLoop_bad b r :
  0x80 <= u8 b -> DecodeRuneInString (String b r) = (RuneError, 1%nat) ->
  appendStringLoop (String b r) = escape_bad +:+ appendStringLoop r.
Proof.
  intros H E. cbn [appendStringLoop]. rewrite E.
  rewrite ltb_false by (unfold RuneSelf; lia). reflexivity.
Qed.

Lemma ValidString_ascii b r :
  u8 b < 0x80 -> ValidString (String b r) = ValidString r.
Proof.
  intros H. cbn [ValidString]. unfold DecodeRuneInString.
  pose proof (first_spec (u8 b) (u8_range b)) as Hf.
  destruct (first (u8 b)) as [| |sz lo hi]; [|lia|unfold lead_ok in Hf; lia].
  destruct (Z.eqb_spec (u8 b) RuneError) as [E|_];
    [unfold RuneError in E; lia|reflexivity].
Qed.

Lemma ValidString_bad b r :
  DecodeRuneInString (String b r) = (RuneError, 1%nat) ->
  ValidString (String b r) = false.
Proof. intros E. cbn [ValidString]. rewrite E. reflexivity. Qed.

(** The scanner accepts every string body that [appendString] writes. *)
Lemma strrun_appendStringLoop (q : string) :
  strrun InString (appendStringLoop q) = Some InString.
Proof.
  induction q as [|b r Hb IH|b r Hb E IH|chunk c size r Hv IH] using utf8_ind.
  - reflexivity.
  - rewrite appendStringLoop_ascii by exact Hb. rewrite strrun_app.
    rewrite strrun_ascii by (apply Z.ltb_lt; exact Hb). exact IH.
  - rewrite appendStringLoop_bad by assumption. rewrite strrun_app.
    change (strrun InString escape_bad) with (Some InString). exact IH.
  - rewrite (appendStringLoop_chunk _ _ _ _ Hv). rewrite strrun_app.
    assert (strrun InString (escaped chunk c) = Some InString) as ->; [|exact IH].
    unfold escaped.
    destruct (Z.eqb_spec c 0x2028) as [->|_]; [reflexivity|].
    destruct (Z.eqb_spec c 0x2029) as [->|_]; [reflexivity|].
    cbn [orb]. apply strrun_high. apply Hv.
Qed.

Lemma unquoteLoop_ascii (b : ascii) (t : string) :
  (u8 b <? 0x80) = true ->
  unquoteLoop ((if htmlSafeSet b then String b EmptyString else escapeByte b) +:+ t)
  = prepend (String b EmptyString) (unquoteLoop t).
Proof.
  destruct b as [[] [] [] [] [] [] [] []]; intros H;
    first [discriminate H | reflexivity].
Qed.

Lemma prepend_app (a b : string) (o : option string) :
  prepend a (prepend b o) = prepend (a +:+ b) o.
Proof. destruct o; cbn [prepend]; [rewrite append_assoc|]; reflexivity. Qed.

Lemma unquoteLoop_chunk chunk c size t :
  valid_chunk chunk c size ->
  unquoteLoop (chunk +:+ t) = prepend chunk (unquoteLoop t).
Proof.
  intros Hv. pose proof (chunk_shape _ _ _ Hv) as Hsh.
  destruct Hv as (Hs & Hl & Hh & He & Hd). specialize (Hd t).
  assert (Hfirst : forall b0 rest, chunk = String b0 rest ->
            Ascii.eqb b0 "\" = false /\ Ascii.eqb b0 dquote = false
            /\ (u8 b0 <? 0x20) = false /\ (u8 b0 <? RuneSelf) = false).
  { intros b0 rest ->. cbn [high] in Hh. destruct Hh as [H0 _].
    repeat split.
    - apply high_not_char; [exact H0|reflexivity].
    - apply high_not_char; [exact H0|reflexivity].
    - apply ltb_false. lia.
    - apply ltb_false. unfold RuneSelf. lia. }
  destruct Hs as [-> | [-> | ->]].
  - destruct Hsh as (b0 & b1 & ->).
    destruct (Hfirst _ _ eq_refl) as (F1 & F2 & F3 & F4).
    cbn [String.append] in *. cbn [unquoteLoop].
    rewrite F1, F2, F3, F4, Hd, He. reflexivity.
  - destruct Hsh as (b0 & b1 & b2 & ->).
    destruct (Hfirst _ _ eq_refl) as (F1 & F2 & F3 & F4).
    cbn [String.append] in *. cbn [unquoteLoop].
    rewrite F1, F2, F3, F4, Hd, He. reflexivity.
  - destruct Hsh as (b0 & b1 & b2 & b3 & ->).
    destruct (Hfirst _ _ eq_refl) as (F1 & F2 & F3 & F4).
    cbn [String.append] in *. cbn [unquoteLoop].
    rewrite F1, F2, F3, F4, Hd, He. reflexivity.
Qed.

Lemma unquoteLoop_escaped chunk c size t :
  valid_chunk chunk c size ->
  unquoteLoop (escaped chunk c +:+ t) = prepend chunk (unquoteLoop t).
Proof.
  intros Hv. unfold escaped.
  destruct (Z.eqb_spec c 0x2028) as [->|_].
  { destruct Hv as (_ & _ & _ & <- & _). reflexivity. }
  destruct (Z.eqb_spec c 0x2029) as [->|_].
  { destruct Hv as (_ & _ & _ & <- & _). reflexivity. }
  cbn [orb]. apply (unquoteLoop_chunk _ _ _ _ Hv).
Qed.

(** Unquoting what [appendString] wrote gives the string back, when the
    string is valid UTF-8. *)
Lemma unquoteLoop_appendStringLoop (q : string) :
  ValidString q = true -> unquoteLoop (appendStringLoop q) = Some q.
Proof.
  induction q as [|b r Hb IH|b r Hb E IH|chunk c size r Hv IH] using utf8_ind;
    intros Hq.
  - reflexivity.
  - rewrite ValidString_ascii in Hq by exact Hb.
    rewrite appendStringLoop_ascii by exact Hb.
    rewrite unquoteLoop_ascii by (apply Z.ltb_lt; exact Hb).
    rewrite (IH Hq). reflexivity.
  - rewrite (ValidString_bad _ _ E) in Hq. discriminate.
  - rewrite (ValidString_chunk _ _ _ _ Hv) in Hq.
    rewrite (appendStringLoop_chunk _ _ _ _ Hv).
    rewrite (unquoteLoop_escaped _ _ _ _ Hv). rewrite (IH Hq). reflexivity.
Qed.

Lemma run_app a : forall st b,
  run st (a +:+ b) =
  match run st a with Some st' => run st' b | None => None end.
Proof.
  induction a as [|c a IH]; intros st b; cbn [String.append run];
    [reflexivity|].
  destruct (step st c); [apply IH|reflexivity].
Qed.

Lemma run_wire_prefix :
  run (SPos [] BeginValue) wire_prefix = Some (SPos content_stack BeginValue).
Proof. vm_compute. reflexivity. Qed.

Lemma run_wire_suffix (s : string) :
  match run (SPos (FNext [("content", Str s); ("role", Str "user")]
                     :: tl content_stack) EndValue) wire_suffix with
  | Some st => step st " "
  | None => None
  end = Some (SEndTop (payload_value s)).
Proof. vm_compute. reflexivity. Qed.

Lemma run_string (stk : list frame) (q rest : string) :
  ValidString q = true ->
  run (SPos stk BeginValue) (appendString q +:+ rest)
  = match deliver stk (Str q) with
    | Some st => run st rest
    | None => None
    end.
Proof.
  intros Hq. unfold appendString. cbn [String.append run].
  replace (step (SPos stk BeginValue) dquote)
    with (Some (SStr stk InString EmptyString)) by reflexivity.
  rewrite append_assoc. rewrite run_app.
  rewrite (run_strrun _ stk InString EmptyString InString
             (strrun_appendStringLoop q)).
  cbn [String.append run step stepStr].
  replace (Ascii.eqb dquote dquote) with true by reflexivity.
  rewrite (unquoteLoop_appendStringLoop q Hq). reflexivity.
Qed.

Lemma parse_wire (q : string) :
  ValidString q = true -> parse (wire q) = Some (payload_value q).
Proof.
  intros Hq. unfold parse, wire. rewrite run_app, run_wire_prefix.
  rewrite (run_string content_stack q wire_suffix Hq).
  cbn [deliver content_stack].
  pose proof (run_wire_suffix q) as H. cbn [tl content_stack] in H.
  destruct (run _ wire_suffix) as [st|]; [rewrite H; reflexivity|discriminate].
Qed.

Lemma decode_payload_value (q : string) :
  decode (payload_value q) (zero : DeepSeekRequestPayload) = Some (payload q).
Proof. vm_compute. reflexivity. Qed.

Lemma Unmarshal_wire (q : string) :
  ValidString q = true -> Unmarshal (wire q) zero = Some (payload q).
Proof.
  intros Hq. unfold Unmarshal. rewrite (parse_wire q Hq).
  apply decode_payload_value.
Qed.

End Codec.

Lemma ValidString_whitespace (s : string) :
  whitespace_only s = true -> utf8.ValidString s = true.
Proof.
  induction s as [|c t IH]; [reflexivity|].
  cbn [whitespace_only]. intros H. apply andb_prop in H as [Hc Ht].
  rewrite Codec.ValidString_ascii; [exact (IH Ht)|].
  unfold json.isSpace in Hc. apply andb_prop in Hc as [Hc _].
  apply Z.leb_le in Hc. lia.
Qed.

(** ** C6: marshalling and unmarshalling the payload *)

(** C6, the claim as stated fails: the payload for the query of the single
    byte 0xFF marshals to a text that unmarshals to a different payload, the
    byte having become U+FFFD. *)
Lemma C6_counterexample :
  json.Marshal (payload query_ff) = Some (wire query_ff)
  /\ json.Unmarshal (wire query_ff) json.zero = Some (payload replacement)
  /\ payload replacement <> payload query_ff.
Proof.
  split; [apply Marshal_payload|]. split; [vm_compute; reflexivity|].
  intros H. apply (f_equal Messages) in H. vm_compute in H. discriminate H.
Qed.

(** C6, amended.  For every payload the handler builds from a query that is
    valid UTF-8, marshalling succeeds and unmarshalling the result gives a
    struct equal to the original. *)
Theorem C6_round_trip_valid_utf8 (query : string) :
  utf8.ValidString query = true ->
  exists data,
    json.Marshal (payload query) = Some data
    /\ json.Unmarshal data json.zero = Some (payload query).
Proof.
  intros Hq. exists (wire query). split.
  - apply Marshal_payload.
  - apply Codec.Unmarshal_wire. exact Hq.
Qed.

Lemma C6_witness :
  exists data,
    json.Marshal (payload "Hello") = Some data
    /\ json.Unmarshal data json.zero = Some (payload "Hello").
Proof.
  apply (C6_round_trip_valid_utf8 "Hello"). vm_compute. reflexivity.
Defined.


(** * Further properties of the handler and of its start-up *)

(** X1.  For a non-empty query, when the request can be created, exactly
    one request is sent: a POST to the fixed completions URL, with the
    headers [Content-Type: application/json] and
    [Authorization: Bearer <key>] and no other, and with the marshalled
    payload as body. *)
Theorem X1_outbound_request (w : World) (query : gmap string (list string)) :
  first_query query <> EmptyString ->
  NewRequest w = None ->
  exists req,
    sent (serve w query) = [req]
    /\ http.Method req = "POST"
    /\ http.URL req = "https://llm.chutes.ai/v1/chat/completions"
    /\ http.Header req !! "Content-Type" = Some ["application/json"]
    /\ http.Header req !! "Authorization" = Some ["Bearer " +:+ apiKey w]
    /\ dom (http.Header req) = {["Content-Type"; "Authorization"]}
    /\ json.Marshal (payload (first_query query)) = Some (http.Body req).
Proof.
  intros Hq Hn. destruct (serve_sent w query Hq Hn) as [Hs _].
  exists (outbound w (wire (first_query query))). split; [exact Hs|].
  unfold outbound, http.Header_Set. cbn [http.Method http.URL http.Header http.Body].
  repeat split. apply Marshal_payload.
Qed.

Lemma X1_witness :
  exists req,
    sent (serve (answering "k" 200 "{}") (q_is "Hello")) = [req]
    /\ http.Method req = "POST"
    /\ http.URL req = "https://llm.chutes.ai/v1/chat/completions"
    /\ http.Header req !! "Content-Type" = Some ["application/json"]
    /\ http.Header req !! "Authorization"
       = Some ["Bearer " +:+ apiKey (answering "k" 200 "{}")]
    /\ dom (http.Header req) = {["Content-Type"; "Authorization"]}
    /\ json.Marshal (payload (first_query (q_is "Hello"))) = Some (http.Body req).
Proof.
  apply (X1_outbound_request (answering "k" 200 "{}") (q_is "Hello")).
  - rewrite first_query_q_is. discriminate.
  - reflexivity.
Defined.

(** X2.  When [client.Do] fails (connection error, timeout), the handler
    answers HTTP 500 with the text of an unreachable upstream, has sent its
    one request, and has logged the query and then the error. *)
Theorem X2_transport_failure (w : World) (query : gmap string (list string))
    (err : string) :
  first_query query <> EmptyString ->
  NewRequest w = None ->
  upstream w (outbound w (wire (first_query query))) = http.DoErr err ->
  response (serve w query) = (Some 500, msg_unreachable)
  /\ sent (serve w query) = [outbound w (wire (first_query query))]
  /\ log (serve w query) =
     [ received (first_query query);
       {| format := "Error sending request to DeepSeek API: %v";
          args := [ArgError (ExternalError err)] |} ].
Proof.
  intros Hq Hn Hu. unfold first_query in *. run_handler.
  rewrite (eqb_empty_false _ Hq). rewrite Marshal_payload, Hn.
  hsimpl. rewrite Hu. hsimpl. auto.
Qed.

Lemma X2_witness :
  response (serve (constant_world "k" None (http.DoErr "timeout")) (q_is "Hello"))
    = (Some 500, msg_unreachable)
  /\ sent (serve (constant_world "k" None (http.DoErr "timeout")) (q_is "Hello"))
     = [outbound (constant_world "k" None (http.DoErr "timeout"))
          (wire (first_query (q_is "Hello")))]
  /\ log (serve (constant_world "k" None (http.DoErr "timeout")) (q_is "Hello")) =
     [ received (first_query (q_is "Hello"));
       {| format := "Error sending request to DeepSeek API: %v";
          args := [ArgError (ExternalError "timeout")] |} ].
Proof.
  apply (X2_transport_failure (constant_world "k" None (http.DoErr "timeout"))
           (q_is "Hello") "timeout").
  - rewrite first_query_q_is. discriminate.
  - reflexivity.
  - reflexivity.
Defined.

(** X3.  When the body of the upstream response cannot be read, the handler
    answers HTTP 500 with the internal-error text, whatever the status of
    that response (200 included), after its one request. *)
Theorem X3_read_failure (w : World) (query : gmap string (list string))
    (code : Z) (err : string) :
  first_query query <> EmptyString ->
  NewRequest w = None ->
  upstream w (outbound w (wire (first_query query))) =
    http.DoOk {| http.StatusCode := code; http.ResponseBody := http.ReadErr err |} ->
  response (serve w query) = (Some 500, msg_internal)
  /\ length (sent (serve w query)) = 1%nat.
Proof.
  intros Hq Hn Hu. unfold first_query in *. run_handler.
  rewrite (eqb_empty_false _ Hq). rewrite Marshal_payload, Hn.
  hsimpl. rewrite Hu. hsimpl. auto.
Qed.

Lemma X3_witness :
  response
    (serve (constant_world "k" None
              (http.DoOk {| http.StatusCode := 200;
                            http.ResponseBody := http.ReadErr "reset" |}))
           (q_is "Hello"))
    = (Some 500, msg_internal)
  /\ length
       (sent (serve (constant_world "k" None
                       (http.DoOk {| http.StatusCode := 200;
                                     http.ResponseBody := http.ReadErr "reset" |}))
                    (q_is "Hello"))) = 1%nat.
Proof.
  apply (X3_read_failure
           (constant_world "k" None
              (http.DoOk {| http.StatusCode := 200;
                            http.ResponseBody := http.ReadErr "reset" |}))
           (q_is "Hello") 200 "reset").
  - rewrite first_query_q_is. discriminate.
  - reflexivity.
  - reflexivity.
Defined.

(** X4.  When the outbound request cannot be created, the handler answers
    HTTP 500 with the internal-error text and sends nothing. *)
Theorem X4_new_request_failure (w : World) (query : gmap string (list string))
    (err : string) :
  first_query query <> EmptyString ->
  NewRequest w = Some err ->
  response (serve w query) = (Some 500, msg_internal)
  /\ sent (serve w query) = [].
Proof.
  intros Hq Hn. unfold first_query in *. run_handler.
  rewrite (eqb_empty_false _ Hq). rewrite Marshal_payload, Hn.
  hsimpl. auto.
Qed.

Lemma X4_witness :
  response (serve (constant_world "k" (Some "bad url") (http.DoErr "unused"))
                  (q_is "Hello"))
    = (Some 500, msg_internal)
  /\ sent (serve (constant_world "k" (Some "bad url") (http.DoErr "unused"))
                 (q_is "Hello")) = [].
Proof.
  apply (X4_new_request_failure
           (constant_world "k" (Some "bad url") (http.DoErr "unused"))
           (q_is "Hello") "bad url").
  - rewrite first_query_q_is. discriminate.
  - reflexivity.
Defined.

Lemma sent_cases (w : World) (query : gmap string (list string)) :
  sent (serve w query) = []
  \/ sent (serve w query) = [outbound w (wire (first_query query))].
Proof.
  unfold first_query. run_handler.
  destruct (String.eqb _ _) eqn:E; [hsimpl; auto|].
  rewrite Marshal_payload.
  destruct (NewRequest w); [hsimpl; auto|]. hsimpl.
  destruct (upstream w _) as [err|resp]; [hsimpl; auto|].
  destruct (http.ResponseBody resp) as [body|err]; [|hsimpl; auto].
  destruct (negb _); [hsimpl; auto|].
  destruct (json.Unmarshal _ _) as [r|]; [|hsimpl; auto].
  destruct (Choices r) as [|c0 ?]; [hsimpl; auto|].
  destruct (negb _); hsimpl; auto.
Qed.

(** X5.  Whatever happens, the handler sends at most one request upstream
    (there is no retry): nothing, or the one request that carries the
    marshalled payload. *)
Theorem X5_at_most_one_request (w : World) (query : gmap string (list string)) :
  sent (serve w query) = []
  \/ sent (serve w query) = [outbound w (wire (first_query query))].
Proof. apply sent_cases. Qed.

(** X6.  The body of the answer is never empty: every failure has its
    fixed text, and the answer of the model is relayed only when it is not
    empty (the fallback text is sent otherwise). *)
Theorem X6_body_never_empty (w : World) (query : gmap string (list string)) :
  snd (response (serve w query)) <> EmptyString.
Proof.
  run_handler.
  destruct (String.eqb _ _) eqn:E; [hsimpl; discriminate|].
  rewrite Marshal_payload.
  destruct (NewRequest w); [hsimpl; discriminate|]. hsimpl.
  destruct (upstream w _) as [err|resp]; [hsimpl; discriminate|].
  destruct (http.ResponseBody resp) as [body|err]; [|hsimpl; discriminate].
  destruct (negb _); [hsimpl; discriminate|].
  destruct (json.Unmarshal _ _) as [r|]; [|hsimpl; discriminate].
  destruct (Choices r) as [|c0 ?]; [hsimpl; discriminate|].
  destruct (String.eqb (Content (ChoiceMessage c0)) EmptyString) eqn:Ec;
    hsimpl; [discriminate|].
  apply String.eqb_neq. exact Ec.
Qed.

(** X7.  For an upstream response with a status other than 200, the log
    holds the query and then one line with that status and the raw body of
    the response (which the caller does not get, see C8). *)
Theorem X7_upstream_error_logged (w : World) (query : gmap string (list string))
    (code : Z) (body : string) :
  first_query query <> EmptyString ->
  NewRequest w = None ->
  upstream w (outbound w (wire (first_query query))) =
    http.DoOk {| http.StatusCode := code; http.ResponseBody := http.ReadOk body |} ->
  code <> 200 ->
  log (serve w query) =
    [ received (first_query query);
      {| format := "Error from DeepSeek API. Status: %d, Body: %s";
         args := [ArgInt code; ArgString body] |} ].
Proof.
  intros Hq Hn Hu Hc. unfold first_query in *. run_handler.
  rewrite (eqb_empty_false _ Hq). rewrite Marshal_payload, Hn.
  hsimpl. rewrite Hu. hsimpl. unfold http.StatusOK.
  apply Z.eqb_neq in Hc. rewrite Hc. hsimpl. reflexivity.
Qed.

Lemma X7_witness :
  log (serve (answering "k" 404 "not found") (q_is "Hello")) =
    [ received (first_query (q_is "Hello"));
      {| format := "Error from DeepSeek API. Status: %d, Body: %s";
         args := [ArgInt 404; ArgString "not found"] |} ].
Proof.
  apply (X7_upstream_error_logged (answering "k" 404 "not found")
           (q_is "Hello") 404 "not found").
  - rewrite first_query_q_is. discriminate.
  - reflexivity.
  - reflexivity.
  - discriminate.
Defined.

(** X8.  The handler looks only at the first value of [q]: two inbound
    requests that agree on it get the same answer, cause the same request
    upstream and the same log lines, whatever further values of [q] and
    other parameters they carry. *)
Theorem X8_only_first_q_value (w : World)
    (query1 query2 : gmap string (list string)) :
  first_query query1 = first_query query2 ->
  response (serve w query1) = response (serve w query2)
  /\ sent (serve w query1) = sent (serve w query2)
  /\ log (serve w query1) = log (serve w query2).
Proof.
  unfold first_query. intros H. run_handler. rewrite <- H.
  destruct (String.eqb _ _) eqn:E; [hsimpl; auto|].
  rewrite Marshal_payload.
  destruct (NewRequest w); [hsimpl; auto|]. hsimpl.
  destruct (upstream w _) as [err|resp]; [hsimpl; auto|].
  destruct (http.ResponseBody resp) as [body|err]; [|hsimpl; auto].
  destruct (negb _); [hsimpl; auto|].
  destruct (json.Unmarshal _ _) as [r|]; [|hsimpl; auto].
  destruct (Choices r) as [|c0 ?]; [hsimpl; auto|].
  destruct (negb _); hsimpl; auto.
Qed.

Lemma X8_witness :
  response (serve (answering "k" 200 (body_with_content "Hi")) (q_is "Hello"))
    = response (serve (answering "k" 200 (body_with_content "Hi")) q_with_more)
  /\ sent (serve (answering "k" 200 (body_with_content "Hi")) (q_is "Hello"))
     = sent (serve (answering "k" 200 (body_with_content "Hi")) q_with_more)
  /\ log (serve (answering "k" 200 (body_with_content "Hi")) (q_is "Hello"))
     = log (serve (answering "k" 200 (body_with_content "Hi")) q_with_more).
Proof.
  apply (X8_only_first_q_value (answering "k" 200 (body_with_content "Hi"))
           (q_is "Hello") q_with_more).
  vm_compute. reflexivity.
Defined.

(** X11.  Marshalling the payload succeeds for every query, so the branch
    for a marshalling error (lines 86 to 90) is never taken: no log line
    reports such an error. *)
Theorem X11_marshal_never_fails (w : World) (query : gmap string (list string)) :
  (exists data, json.Marshal (payload (first_query query)) = Some data)
  /\ Forall (fun l => args l <> [ArgError MarshalError]) (log (serve w query)).
Proof.
  split; [eexists; apply Marshal_payload|].
  run_handler.
  destruct (String.eqb _ _) eqn:E; [hsimpl; constructor|].
  rewrite Marshal_payload.
  destruct (NewRequest w);
    [hsimpl; repeat (constructor; [discriminate|]); constructor|]. hsimpl.
  destruct (upstream w _) as [err|resp];
    [hsimpl; repeat (constructor; [discriminate|]); constructor|].
  destruct (http.ResponseBody resp) as [body|err];
    [|hsimpl; repeat (constructor; [discriminate|]); constructor].
  destruct (negb _);
    [hsimpl; repeat (constructor; [discriminate|]); constructor|].
  destruct (json.Unmarshal _ _) as [r|];
    [|hsimpl; repeat (constructor; [discriminate|]); constructor].
  destruct (Choices r) as [|c0 ?];
    [hsimpl; repeat (constructor; [discriminate|]); constructor|].
  destruct (negb _); hsimpl; repeat (constructor; [discriminate|]); constructor.
Qed.

(** ** The codec on arbitrary bytes, and on the response *)

Module Extra.
Import utf8 json Codec.

Lemma unquoteLoop_bad (t : string) :
  unquoteLoop (escape_bad +:+ t) = prepend replacement (unquoteLoop t).
Proof. reflexivity. Qed.

Lemma ValidString_replacement (t : string) :
  ValidString (replacement +:+ t) = ValidString t.
Proof. reflexivity. Qed.

(** Whatever the bytes of [q], what was written for it unquotes, to valid
    UTF-8, and to [q] itself when [q] is valid. *)
Lemma unquoteLoop_total (q : string) :
  exists q', unquoteLoop (appendStringLoop q) = Some q'
             /\ ValidString q' = true
             /\ (ValidString q = true -> q' = q).
Proof.
  induction q as [|b r Hb IH|b r Hb E IH|chunk c size r Hv IH] using utf8_ind.
  - exists EmptyString. repeat split; reflexivity.
  - destruct IH as (r' & Hu & Hr & Hid). exists (String b r').
    rewrite appendStringLoop_ascii by exact Hb.
    rewrite unquoteLoop_ascii by (apply Z.ltb_lt; exact Hb).
    rewrite Hu. rewrite !ValidString_ascii by exact Hb.
    repeat split; [exact Hr|]. intros H. f_equal. exact (Hid H).
  - destruct IH as (r' & Hu & Hr & Hid). exists (replacement +:+ r').
    rewrite appendStringLoop_bad by assumption.
    rewrite unquoteLoop_bad, Hu. rewrite ValidString_replacement.
    rewrite (ValidString_bad _ _ E).
    repeat split; [exact Hr|discriminate].
  - destruct IH as (r' & Hu & Hr & Hid). exists (chunk +:+ r').
    rewrite (appendStringLoop_chunk _ _ _ _ Hv).
    rewrite (unquoteLoop_escaped _ _ _ _ Hv), Hu.
    rewrite !(ValidString_chunk _ _ _ _ Hv).
    repeat split; [exact Hr|]. intros H. f_equal. exact (Hid H).
Qed.

Lemma run_string_gen (stk : list frame) (q q' rest : string) :
  unquoteLoop (appendStringLoop q) = Some q' ->
  run (SPos stk BeginValue) (appendString q +:+ rest)
  = match deliver stk (Str q') with
    | Some st => run st rest
    | None => None
    end.
Proof.
  intros Hq. unfold appendString. cbn [String.append run].
  replace (step (SPos stk BeginValue) dquote)
    with (Some (SStr stk InString EmptyString)) by reflexivity.
  rewrite append_assoc. rewrite run_app.
  rewrite (run_strrun _ stk InString EmptyString InString
             (strrun_appendStringLoop q)).
  cbn [String.append run step stepStr].
  replace (Ascii.eqb dquote dquote) with true by reflexivity.
  rewrite Hq. reflexivity.
Qed.

Lemma Unmarshal_wire_gen (q q' : string) :
  unquoteLoop (appendStringLoop q) = Some q' ->
  Unmarshal (wire q) zero = Some (payload q').
Proof.
  intros Hq. unfold Unmarshal, parse, wire. rewrite run_app, run_wire_prefix.
  rewrite (run_string_gen content_stack q q' wire_suffix Hq).
  cbn [deliver content_stack].
  pose proof (run_wire_suffix q') as H. cbn [tl content_stack] in H.
  destruct (run _ wire_suffix) as [st|]; [rewrite H|discriminate].
  apply decode_payload_value.
Qed.

Lemma body_with_content_split (content : string) :
  body_with_content content
  = body_prefix +:+ appendString content +:+ "}}]}".
Proof.
  unfold body_with_content, body_prefix.
  rewrite ?append_assoc, ?append_cons, ?append_nil. reflexivity.
Qed.

Lemma run_body_prefix :
  run (SPos [] BeginValue) body_prefix = Some (SPos choice_stack BeginValue).
Proof. vm_compute. reflexivity. Qed.

Lemma run_body_suffix (s : string) :
  match run (SPos (FNext [("content", Str s)] :: tl choice_stack) EndValue)
            "}}]}" with
  | Some st => step st " "
  | None => None
  end
  = Some (SEndTop
            (Object [("choices",
                      Array [Object [("message", Object [("content", Str s)])]])])).
Proof. vm_compute. reflexivity. Qed.

Lemma Unmarshal_body_with_content (content : string) :
  ValidString content = true ->
  Unmarshal (body_with_content content) zero = Some (one_choice content).
Proof.
  intros Hv. rewrite body_with_content_split.
  unfold Unmarshal, parse. rewrite run_app, run_body_prefix.
  rewrite (run_string choice_stack content "}}]}" Hv).
  cbn [deliver choice_stack].
  pose proof (run_body_suffix content) as H. cbn [tl choice_stack] in H.
  destruct (run _ "}}]}") as [st|]; [rewrite H|discriminate].
  vm_compute. reflexivity.
Qed.

End Extra.

(** ** C10: a query of white space *)

(** C10, the claim as stated fails: the non-empty query of the single byte
    0xFF is not forwarded verbatim.  The body of the request sent decodes
    to a message whose content is U+FFFD, and it is the same body as for
    the different query of the byte 0xFE. *)
Lemma C10_counterexample :
  q_is query_ff !! "q" = Some [query_ff]
  /\ query_ff <> EmptyString
  /\ map http.Body (sent (serve (answering "k" 200 "{}") (q_is query_ff)))
     = [wire query_ff]
  /\ json.Unmarshal (wire query_ff) json.zero = Some (payload replacement)
  /\ replacement <> query_ff
  /\ query_ff <> query_fe
  /\ wire query_ff = wire query_fe.
Proof.
  split; [reflexivity|]. split; [discriminate|].
  split; [vm_compute; reflexivity|]. split; [vm_compute; reflexivity|].
  split; [vm_compute; discriminate|]. split; [vm_compute; discriminate|].
  vm_compute. reflexivity.
Qed.

(** C10, amended.  A non-empty first value of [q], white space included, is
    treated as present (the answer is not HTTP 400); the handler does not
    trim or normalise it: it is, byte for byte, the content of the single
    user message of the payload, and the one request sent has the
    marshalled payload as its body.  When the value is only white space, or
    any valid UTF-8, that body decodes to the same content; otherwise
    [json.Marshal] has replaced the invalid bytes, and the body decodes to
    a content that is valid UTF-8. *)
Theorem C10_query_present_and_forwarded (w : World)
    (query : gmap string (list string)) (q : string) (rest : list string) :
  query !! "q" = Some (q :: rest) ->
  q <> EmptyString ->
  NewRequest w = None ->
  fst (response (serve w query)) <> Some 400
  /\ Messages (payload q) = [ {| Role := "user"; Content := q |} ]
  /\ exists req,
       sent (serve w query) = [req]
       /\ json.Marshal (payload q) = Some (http.Body req)
       /\ (whitespace_only q = true \/ utf8.ValidString q = true ->
           json.Unmarshal (http.Body req) json.zero = Some (payload q))
       /\ exists content,
            json.Unmarshal (http.Body req) json.zero = Some (payload content)
            /\ utf8.ValidString content = true.
Proof.
  intros Hq Hne Hn.
  assert (Hf : first_query query = q).
  { unfold first_query, gin.Query, gin.new. cbn [gin.queryCache].
    rewrite Hq. reflexivity. }
  assert (Hne' : first_query query <> EmptyString) by (rewrite Hf; exact Hne).
  destruct (serve_sent w query Hne' Hn) as [Hs H4]. rewrite Hf in Hs.
  split; [exact H4|]. split; [reflexivity|].
  exists (outbound w (wire q)). split; [exact Hs|].
  unfold outbound. cbn [http.Body].
  split; [apply Marshal_payload|]. split.
  - intros [Hw|Hv]; apply Codec.Unmarshal_wire;
      [apply ValidString_whitespace; exact Hw|exact Hv].
  - destruct (Extra.unquoteLoop_total q) as (q' & Hu & Hv & _).
    exists q'. split; [apply Extra.Unmarshal_wire_gen; exact Hu|exact Hv].
Qed.

Lemma C10_witness :
  fst (response (serve (answering "k" 200 "{}") (q_is "  "))) <> Some 400
  /\ Messages (payload "  ") = [ {| Role := "user"; Content := "  " |} ]
  /\ exists req,
       sent (serve (answering "k" 200 "{}") (q_is "  ")) = [req]
       /\ json.Marshal (payload "  ") = Some (http.Body req)
       /\ (whitespace_only "  " = true \/ utf8.ValidString "  " = true ->
           json.Unmarshal (http.Body req) json.zero = Some (payload "  "))
       /\ exists content,
            json.Unmarshal (http.Body req) json.zero = Some (payload content)
            /\ utf8.ValidString content = true.
Proof.
  apply (C10_query_present_and_forwarded (answering "k" 200 "{}") (q_is "  ")
           "  " []).
  - reflexivity.
  - discriminate.
  - reflexivity.
Defined.

(** X12.  Whatever bytes the query holds, the text sent upstream is JSON
    that decodes to a payload of the same shape (fixed model, one user
    message, [stream], [max_tokens], [temperature]): the query cannot add
    or change a field.  The decoded content is valid UTF-8, and is the
    query itself when the query is valid UTF-8. *)
Theorem X12_request_body_always_decodes (query : string) :
  exists content,
    json.Unmarshal (wire query) json.zero = Some (payload content)
    /\ utf8.ValidString content = true
    /\ (utf8.ValidString query = true -> content = query).
Proof.
  destruct (Extra.unquoteLoop_total query) as (q' & Hu & Hv & Hid).
  exists q'. split; [apply Extra.Unmarshal_wire_gen; exact Hu|]. auto.
Qed.


(** X9.  When the upstream server answers 200 with the body
    [{"choices":[{"message":{"content":S}}]}] (no other member, no white
    space), where [S] is the JSON string that [json.Marshal] writes for a
    non-empty answer that is valid UTF-8, the caller gets HTTP 200 with
    exactly that answer: [json.Unmarshal] undoes the escapes of [S] and
    nothing else is changed. *)
Theorem X9_answer_relayed_through_json (w : World)
    (query : gmap string (list string)) (answer : string) :
  first_query query <> EmptyString ->
  NewRequest w = None ->
  upstream w (outbound w (wire (first_query query))) =
    http.DoOk {| http.StatusCode := 200;
                 http.ResponseBody := http.ReadOk (body_with_content answer) |} ->
  utf8.ValidString answer = true ->
  answer <> EmptyString ->
  response (serve w query) = (Some 200, answer).
Proof.
  intros Hq Hn Hu Hv Hne.
  destruct (serve_answered w query 200 _ Hq Hn Hu) as [H _]. rewrite H.
  change (200 =? 200) with true. cbv iota. unfold relay.
  rewrite (Extra.Unmarshal_body_with_content answer Hv).
  unfold one_choice. cbn [Choices ChoiceMessage Content].
  rewrite (eqb_empty_false _ Hne). reflexivity.
Qed.

Lemma X9_witness :
  response (serve (answering "k" 200 (body_with_content "Hi")) (q_is "Hello"))
  = (Some 200, "Hi").
Proof.
  apply (X9_answer_relayed_through_json
           (answering "k" 200 (body_with_content "Hi")) (q_is "Hello") "Hi").
  - rewrite first_query_q_is. discriminate.
  - reflexivity.
  - reflexivity.
  - vm_compute. reflexivity.
  - discriminate.
Defined.

(** X10.  [main] stops with [log.Fatal] exactly when [CHUTES_API_TOKEN] is
    unset or empty; otherwise the key is the non-empty value of the
    variable, and every request the handler sends with it carries
    [Authorization: Bearer <key>]. *)
Theorem X10_startup_token (env : gmap string string) :
  match main_start env with
  | inl _ =>
    env !! "CHUTES_API_TOKEN" = None
    \/ env !! "CHUTES_API_TOKEN" = Some EmptyString
  | inr key =>
    env !! "CHUTES_API_TOKEN" = Some key /\ key <> EmptyString
    /\ forall w query req,
         apiKey w = key -> In req (sent (serve w query)) ->
         http.Header req !! "Authorization" = Some ["Bearer " +:+ key]
  end.
Proof.
  unfold main_start, Getenv.
  destruct (env !! "CHUTES_API_TOKEN") as [v|] eqn:E.
  - destruct (String.eqb_spec v EmptyString) as [->|Hne]; [auto|].
    repeat split; [exact Hne|].
    intros w query req Hk Hin.
    destruct (sent_cases w query) as [Hs|Hs]; rewrite Hs in Hin;
      [destruct Hin|].
    destruct Hin as [<-|[]]. rewrite <- Hk. reflexivity.
  - cbn. auto.
Qed.
